(** * batchglm: negative-binomial GLM fitting, convergence engine and Hessian assembly

    A verification development over a shallow embedding of

    - [batchglm/train/tf/nb/util.py]           (module [NBUtil]),
    - [batchglm/train/tf/base_glm_all/hessians.py] (module [Hessians]),
    - [batchglm/train/tf/base/estimator.py]    (module [Estimator]),
    - [batchglm/models/base.py]                (module [Base]).

    Numbers.  TensorFlow tensors hold floating-point numbers.  Three models
    are used, each where the code needs it:

    - in [NBUtil] tensor entries are real numbers ([R]), because [tf.log] and
      [tf.exp] are part of the code; rounding and overflow are outside the
      model, and [ln] of a non-positive number is [0] there.  The bounds
      of the clips of [fit] are the floating-point numbers numpy computes,
      and nothing is derived from [exp] of them;
    - in [Estimator] a loss is an [fval]: an exact rational or one of the
      IEEE special values [+inf], [-inf], [nan], because the loss windows
      start as [np.inf] and the code tests [np.isinf];
    - in [Hessians] tensor entries are exact rationals ([Q]).

    These modules hold the embedding; [NBUtilFacts], [HessiansFacts],
    [EstimatorFacts] and [BaseFacts] hold the properties.  Code the sources import but do not
    contain ([reduce_weighted_mean], [logit], [stat_utils.welch_t_test],
    [pkg_constants], the weight methods of [HessiansGLM]) and the primitives
    of the session are parameters, or are modelled where a comment says so.
    Loops run on fuel: a number of passes after which the run is reported as
    still running. *)

From Stdlib Require Import List Bool Arith Lia Ascii String ZArith QArith Qabs.
From Stdlib Require Import Reals Lra.
Import ListNotations.


(** ** Exceptions and fallible results *)

Inductive exn : Type :=
| ValueError (msg : string)
| TypeError (msg : string)
| UnboundLocalError (name : string)
| InvalidArgumentError (msg : string)
| IndexError (msg : string)
| ZeroDivisionError (msg : string)
| AttributeError (name : string).

Inductive result (A : Type) : Type :=
| Ok (a : A)
| Err (e : exn).

Arguments Ok {A} a.
Arguments Err {A} e.

Definition is_ok {A : Type} (x : result A) : bool :=
  match x with Ok _ => true | Err _ => false end.

Definition bind {A B : Type} (x : result A) (k : A -> result B) : result B :=
  match x with Ok a => k a | Err e => Err e end.

Declare Scope result_scope.
Delimit Scope result_scope with result.
Notation "x <- c ;; k" := (bind c (fun x => k))
  (at level 61, c at next level, right associativity) : result_scope.

(** ** nb/util.py *)

Module NBUtil.

Local Open Scope R_scope.

(** A rank-2 tensor with its static shape.  Entries outside the shape are
    never read by the operations below. *)
Record tensor : Type := Tensor {
  rows : nat;
  cols : nat;
  at_ : nat -> nat -> R
}.

Definition shape (t : tensor) : nat * nat := (rows t, cols t).

Definition same_shape (a b : tensor) : bool :=
  (rows a =? rows b)%nat && (cols a =? cols b)%nat.

(** Index of a broadcast operand: a dimension of size 1 is read at 0. *)
Definition bidx (dim i : nat) : nat := if (dim =? 1)%nat then O else i.

Definition bat (t : tensor) (i j : nat) : R :=
  at_ t (bidx (rows t) i) (bidx (cols t) j).

Definition tmap (f : R -> R) (t : tensor) : tensor :=
  Tensor (rows t) (cols t) (fun i j => f (at_ t i j)).

(** Elementwise binary operation; the result has the shape of the left
    operand and the right operand is broadcast against it. *)
Definition tmap2 (f : R -> R -> R) (a b : tensor) : tensor :=
  Tensor (rows a) (cols a) (fun i j => f (at_ a i j) (bat b i j)).

Definition tf_fill (shp : nat * nat) (v : R) : tensor :=
  Tensor (fst shp) (snd shp) (fun _ _ => v).

Definition tf_log : tensor -> tensor := tmap ln.
Definition tf_exp : tensor -> tensor := tmap exp.
Definition tf_square : tensor -> tensor := tmap (fun x => x * x).
Definition tf_add : tensor -> tensor -> tensor := tmap2 Rplus.
Definition tf_sub : tensor -> tensor -> tensor := tmap2 Rminus.
Definition tf_mul : tensor -> tensor -> tensor := tmap2 Rmult.
Definition tf_div : tensor -> tensor -> tensor := tmap2 Rdiv.

(** [tf.log_sigmoid x = - log (1 + exp (- x))]. *)
Definition tf_log_sigmoid : tensor -> tensor :=
  tmap (fun x => - ln (1 + exp (- x))).

(** Modelled from the spec: [logit] of [batchglm.train.tf.ops] is not among
    the sources; it converts [probs] to [logits], the log-odds
    [log p - log (1 - p)]. *)
Definition logit : tensor -> tensor :=
  tmap (fun p => ln p - ln (1 - p)).

(** [tf.less]: the boolean mask, entry by entry, with broadcasting of the
    right operand. *)
Definition tf_less (a b : tensor) (i j : nat) : bool :=
  if Rlt_dec (at_ a i j) (bat b i j) then true else false.

(** [tf.where cond x y]: [x] and [y] must have the same shape. *)
Definition tf_where (cond : nat -> nat -> bool) (x y : tensor) : result tensor :=
  if same_shape x y
  then Ok (Tensor (rows x) (cols x)
             (fun i j => if cond i j then at_ x i j else at_ y i j))
  else Err (InvalidArgumentError "where: x and y must have the same shape").

(** A tensor a caller passes for [replace_values]: of rank 2, or of rank 1
    as the docstring of [fit_mme] has it ([shape(X)[1:]] of a matrix [X]). *)
Inductive tf_value : Type :=
| Rank1 (n : nat) (v : nat -> R)
| Rank2 (t : tensor).

(** [tf.where cond x y] with [x] of rank 2: a [y] of another rank is
    rejected like a [y] of another shape. *)
Definition tf_where_value (cond : nat -> nat -> bool) (x : tensor) (y : tf_value)
    : result tensor :=
  match y with
  | Rank2 t => tf_where cond x t
  | Rank1 _ _ => Err (InvalidArgumentError "where: x and y must have the same shape")
  end.

(** *** class NegativeBinomial *)

Record NB : Type := MkNB {
  total_count : tensor;            (* r, stored by the parent class *)
  nb_logits : tensor;
  _log_p : tensor;
  _log_1p : tensor;
  _log_mean : option tensor;
  _log_r : option tensor;
  __mean : option tensor;
  __variance : option tensor
}.

Definition nb_r (d : NB) : tensor := total_count d.

Definition msg_probs : string := "Must pass 'probs' / 'p', 'logits' or 'mean'".
Definition msg_shape : string := "Must pass shape 'r' / 'total_count' or variance".

Definition one_minus_exp (log_p : tensor) : tensor :=
  tmap (fun x => 1 - exp x) log_p.

Definition log_1_plus_exp (logits : tensor) : tensor :=
  tmap (fun x => ln (1 + exp x)) logits.

(** [NegativeBinomial.__init__]. *)
Definition NegativeBinomial
    (total_count r variance p probs logits mean : option tensor) : result NB :=
  let r := match total_count with Some tc => Some tc | None => r end in
  match p with
  | Some _ =>
      (* if p is not None: if p is not None: raise *)
      Err (ValueError msg_probs)
  | None =>
    let logits := match probs with
                  | Some pr => Some (logit pr)
                  | None => logits
                  end in
    match r with
    | None =>
        match variance with
        | None => Err (ValueError msg_shape)
        | Some var =>
            let log_var := tf_log var in
            match logits with
            | None =>
                match mean with
                | None => Err (ValueError msg_probs)
                | Some mu =>
                    let log_mean := tf_log mu in
                    let log_p := tf_sub (tf_log (tf_sub var mu)) log_var in
                    let log_1p := tf_sub log_mean log_var in
                    let logits := tf_sub log_p (tf_log (one_minus_exp log_p)) in
                    let r := tf_div (tf_mul mu mu) (tf_sub var mu) in
                    let log_r := tf_log r in
                    Ok (MkNB r logits log_p log_1p (Some log_mean) (Some log_r)
                             (Some mu) (Some var))
                end
            | Some _ =>
                (* log_mean and log_r are never bound on this path, and
                   [self._log_mean = log_mean] reads them *)
                Err (UnboundLocalError "log_mean")
            end
        end
    | Some r =>
        match logits with
        | None =>
            match mean with
            | None => Err (ValueError msg_probs)
            | Some mu =>
                let log_r_mu := tf_log (tf_add r mu) in
                let log_mean := tf_log mu in
                let log_r := tf_log r in
                let log_p := tf_sub log_mean log_r_mu in
                let log_1p := tf_sub log_r log_r_mu in
                let logits := tf_sub log_p (tf_log (one_minus_exp log_p)) in
                Ok (MkNB r logits log_p log_1p (Some log_mean) (Some log_r)
                         (Some mu) variance)
            end
        | Some lg =>
            let log_p := tf_log_sigmoid lg in
            let log_1p := tf_sub lg (log_1_plus_exp lg) in
            Ok (MkNB r lg log_p log_1p None None mean variance)
        end
    end
  end.

(** *** Reductions along an axis *)

Inductive axis : Type :=
| Axis0      (* reduce over the rows: one value per column *)
| Axis1.     (* reduce over the columns: one value per row *)

(** Sum of [f 0 .. f (n-1)]. *)
Fixpoint rsum (n : nat) (f : nat -> R) : R :=
  match n with
  | O => 0
  | S k => rsum k f + f k
  end.

(** [tf.reduce_sum t ~axis ~keepdims:True]. *)
Definition reduce_sum (t : tensor) (ax : axis) : tensor :=
  match ax with
  | Axis0 => Tensor 1 (cols t) (fun _ j => rsum (rows t) (fun i => at_ t i j))
  | Axis1 => Tensor (rows t) 1 (fun i _ => rsum (cols t) (fun j => at_ t i j))
  end.

(** Number of entries reduced into one output entry. *)
Definition reduced_size (t : tensor) (ax : axis) : nat :=
  match ax with Axis0 => rows t | Axis1 => cols t end.

(** Modelled from the spec: [reduce_weighted_mean] of [batchglm.train.tf.ops]
    is not among the sources.  Per the spec the mean is the weighted average
    along [axis] (with [keepdims=True] at both call sites): the plain average
    without weights, and [sum (w * x) / sum w] with weights.  An average
    over no observation, or with weights that sum to zero, is a division by
    zero (not a number in floating point) and lies outside this model: the
    properties below are stated for a non-zero divisor. *)
Definition reduce_weighted_mean (X : tensor) (weight : option tensor) (ax : axis)
    : tensor :=
  match weight with
  | None =>
      tmap (fun s => s / INR (reduced_size X ax)) (reduce_sum X ax)
  | Some w =>
      tf_div (reduce_sum (tf_mul X w) ax)
             (reduce_sum (Tensor (rows X) (cols X) (bat w)) ax)
  end.

(** *** Data types *)

Inductive dtype : Type := float32 | float64.

(** [dtype.max]: the largest finite number of the type. *)
Definition dtype_max (d : dtype) : R :=
  match d with
  | float32 => (2 - / 2 ^ 23) * 2 ^ 127
  | float64 => (2 - / 2 ^ 52) * 2 ^ 1023
  end.

(** [np.nextafter(0, 1, dtype)]: the smallest positive number of the type. *)
Definition dtype_tiny (d : dtype) : R :=
  match d with
  | float32 => / 2 ^ 149
  | float64 => / 2 ^ 1074
  end.

(** [np.log(dtype.max)]: a number of the type, computed by numpy when the
    graph is built.  It is the floating-point number nearest to the
    logarithm, not the logarithm: for [float32] it is 88.72283935546875,
    which lies above the logarithm of the largest number. *)
Definition np_log_max (d : dtype) : R :=
  match d with
  | float32 => 1453635 / 16384
  | float64 => 6243314768165359 / 8796093022208
  end.

(** [np.log(np.nextafter(0, 1, dtype))], likewise: -103.2789306640625 for
    [float32] and -744.4400719213812 for [float64]. *)
Definition np_log_tiny (d : dtype) : R :=
  match d with
  | float32 => - (846061 / 8192)
  | float64 => - (6548164122079683 / 8796093022208)
  end.

(** *** fit_mme *)

Definition mme_mean (X : tensor) (ax : axis) (weights : option tensor) : tensor :=
  reduce_weighted_mean X weights ax.

Definition mme_variance (X : tensor) (ax : axis) (weights : option tensor) : tensor :=
  reduce_weighted_mean (tf_square (tf_sub X (mme_mean X ax weights))) weights ax.

(** The replacement values in use: the caller's, or a tensor of the shape of
    [variance] filled with [dtype.max].  The data type of [X] and the [dtype]
    argument are one type [dt] here ([tf.where] requires it). *)
Definition mme_replace (variance : tensor) (replace_values : option tf_value)
    (dt : dtype) : tf_value :=
  match replace_values with
  | None => Rank2 (tf_fill (shape variance) (dtype_max dt))
  | Some rv => rv
  end.

Definition fit_mme (X : tensor) (ax : axis) (weights : option tensor)
    (replace_values : option tf_value) (dt : dtype) : result NB :=
  let mean := mme_mean X ax weights in
  let variance := mme_variance X ax weights in
  let replace_values := mme_replace variance replace_values dt in
  (r <- tf_where_value (tf_less mean variance)
                       (tf_div (tf_square mean) (tf_sub variance mean))
                       replace_values ;;
   NegativeBinomial None (Some r) None None None None (Some mean))%result.

(** *** fit *)

(** [distribution.mean()]: the memoised [__mean], or the parent's
    [total_count * exp logits] when none was stored. *)
Definition nb_mean (d : NB) : tensor :=
  match __mean d with
  | Some m => m
  | None => tf_mul (total_count d) (tf_exp (nb_logits d))
  end.

(** [tf.clip_by_value t lo hi = maximum (minimum t hi) lo]. *)
Definition clip (x lo hi : R) : R := Rmax (Rmin x hi) lo.

Definition tf_clip_by_value (t : tensor) (lo hi : R) : tensor :=
  tmap (fun x => clip x lo hi) t.

(** Initial value of a log-variable:
    [clip_by_value (log t) (np.log 1) (np.log dtype.max / 8)]; [np.log 1] is
    0 and the division by 8 is exact. *)
Definition log_init (dt : dtype) (t : tensor) : tensor :=
  tf_clip_by_value (tf_log t) (ln 1) (np_log_max dt / 8).

(** The value of a log-variable as it is passed to [exp]:
    [clip_by_value v (np.log (np.nextafter 0 1)) (np.log dtype.max)]. *)
Definition exp_argument (dt : dtype) (v : tensor) : tensor :=
  tf_clip_by_value v (np_log_tiny dt) (np_log_max dt).

(** The parameter read back from a log-variable. *)
Definition exp_clipped (dt : dtype) (v : tensor) : tensor :=
  tf_exp (exp_argument dt v).

(** The current values of the two [tf.Variable]s an optimizable fit creates.
    An optimizer assigns to them; the returned distribution reads them. *)
Record variables : Type := Variables {
  log_mu : tensor;
  log_r : tensor
}.

(** What [fit] returns: the distribution, or the triple
    [(NegativeBinomial(r, mean), mu_var, r_var)].  The distribution of the
    triple is a graph over the variables, hence a function of their current
    values; [mu_var] and [r_var] are given by their initial values. *)
Inductive fit_result : Type :=
| Fitted (distribution : NB)
| Optimizable (dist : variables -> result NB) (mu_var r_var : tensor).

Definition fit (X : tensor) (ax : axis) (weights : option tensor)
    (optimizable : bool) (dt : dtype) : result fit_result :=
  (distribution <- fit_mme X ax weights None dt ;;
   if optimizable then
     let r_init := log_init dt (nb_r distribution) in
     let mu_init := log_init dt (nb_mean distribution) in
     Ok (Optimizable
           (fun vars =>
              NegativeBinomial None (Some (exp_clipped dt (log_r vars)))
                               None None None None
                               (Some (exp_clipped dt (log_mu vars))))
           mu_init r_init)
   else Ok (Fitted distribution))%result.

(** *** Notions used to state the properties *)

(** The shape of a reduction along [ax] with [keepdims=True]. *)
Definition reduced_shape (t : tensor) (ax : axis) : nat * nat :=
  match ax with
  | Axis0 => (1%nat, cols t)
  | Axis1 => (rows t, 1%nat)
  end.


(** One feature observed four times: the counts 0, 0, 0, 4.  Its mean is 1
    and its variance 3, so the moment estimate of [r] is 1/2. *)
Definition X_0004 : tensor :=
  Tensor 4 1 (fun i _ => match i with 3%nat => 4 | _ => 0 end).

(** One feature observed twice with the same count 2: mean 2, variance 0. *)
Definition X_22 : tensor := Tensor 2 1 (fun _ _ => 2).

(** Whether an optional argument was passed. *)
Definition given {A : Type} (o : option A) : bool :=
  match o with Some _ => true | None => false end.

(** A tensor of one row and one column holding [v]. *)
Definition scalar_tensor (v : R) : tensor := tf_fill (1%nat, 1%nat) v.

(** The [k]-th observation reduced into entry [(i, j)] of a reduction of
    [X] along [ax]. *)
Definition line (X : tensor) (ax : axis) (i j k : nat) : R :=
  match ax with
  | Axis0 => at_ X k j
  | Axis1 => at_ X i k
  end.



(** Three observations of two features: the counts 1, 0, 5 and 2, 2, 2. *)
Definition X_counts : tensor :=
  Tensor 3 2 (fun i j => match j with
                         | O => match i with O => 1 | 1%nat => 0 | _ => 5 end
                         | _ => 2
                         end).

End NBUtil.

(** ** base_glm_all/hessians.py *)

Module Hessians.

Local Open Scope Q_scope.

(** Rank-2 and rank-3 tensors with their static shapes. *)
Record matrix : Type := Matrix {
  m_rows : nat;
  m_cols : nat;
  m_at : nat -> nat -> Q
}.

Record tensor3 : Type := Tensor3 {
  d0 : nat;
  d1 : nat;
  d2 : nat;
  t_at : nat -> nat -> nat -> Q
}.

Definition dims (t : tensor3) : nat * nat * nat := (d0 t, d1 t, d2 t).

(** Sum of [f 0 .. f (n-1)]. *)
Fixpoint qsum (n : nat) (f : nat -> Q) : Q :=
  match n with
  | O => 0
  | S k => qsum k f + f k
  end.

Definition shape_error (op : string) : exn :=
  InvalidArgumentError (op ++ ": incompatible shapes").

(** [tf.matmul a b]. *)
Definition tf_matmul (a b : matrix) : result matrix :=
  if (m_cols a =? m_rows b)%nat
  then Ok (Matrix (m_rows a) (m_cols b)
             (fun i j => qsum (m_cols a) (fun k => m_at a i k * m_at b k j)))
  else Err (shape_error "matmul").

(** [tf.einsum 'of,oc->ofc' W XH]. *)
Definition einsum_of_oc (W XH : matrix) : result tensor3 :=
  if (m_rows W =? m_rows XH)%nat
  then Ok (Tensor3 (m_rows W) (m_cols W) (m_cols XH)
             (fun o f c => m_at W o f * m_at XH o c))
  else Err (shape_error "einsum").

(** [tf.einsum 'ofc,od->fcd' T XH]: the contraction over observations. *)
Definition einsum_ofc_od (T : tensor3) (XH : matrix) : result tensor3 :=
  if (d0 T =? m_rows XH)%nat
  then Ok (Tensor3 (d1 T) (d2 T) (m_cols XH)
             (fun f c d => qsum (d0 T) (fun o => t_at T o f c * m_at XH o d)))
  else Err (shape_error "einsum").

(** [tf.transpose t perm=[0, 2, 1]]. *)
Definition tf_transpose_021 (t : tensor3) : tensor3 :=
  Tensor3 (d0 t) (d2 t) (d1 t) (fun f i j => t_at t f j i).

(** [tf.concat [a, b] axis=2]. *)
Definition tf_concat_axis2 (a b : tensor3) : result tensor3 :=
  if ((d0 a =? d0 b) && (d1 a =? d1 b))%nat
  then Ok (Tensor3 (d0 a) (d1 a) (d2 a + d2 b)
             (fun f i j => if (j <? d2 a)%nat then t_at a f i j
                           else t_at b f i (j - d2 a)%nat))
  else Err (shape_error "concat").

(** [tf.concat [a, b] axis=1]. *)
Definition tf_concat_axis1 (a b : tensor3) : result tensor3 :=
  if ((d0 a =? d0 b) && (d2 a =? d2 b))%nat
  then Ok (Tensor3 (d0 a) (d1 a + d1 b) (d2 a)
             (fun f i j => if (i <? d1 a)%nat then t_at a f i j
                           else t_at b f (i - d1 a)%nat j))
  else Err (shape_error "concat").

(** The evaluated model a Hessian is computed for. *)
Record model : Type := Model {
  X : matrix;                           (* observations x features *)
  mu : matrix;
  r : matrix;
  design_loc : matrix;                  (* observations x coefficients *)
  design_scale : matrix;
  constraints_loc : option matrix;
  constraints_scale : option matrix
}.

(** The builder object [self].  The three weight methods are abstract in
    the parent class [HessiansGLM], which is not among the sources: they are
    fields here, each returning an observations x features matrix. *)
Record HessianGLMALL : Type := Builder {
  compute_a : bool;
  compute_b : bool;
  self_constraints_loc : option matrix;
  self_constraints_scale : option matrix;
  _weight_hessian_aa : matrix -> matrix -> matrix -> matrix;
  _weight_hessian_bb : matrix -> matrix -> matrix -> matrix;
  _weight_hessian_ab : matrix -> matrix -> matrix -> matrix
}.

(** [tf.matmul design constraints] when the builder has constraints, the
    design matrix otherwise.  The test reads the builder's attribute and the
    product reads the model's. *)
Definition constrained (self_constraints : option matrix) (design : matrix)
    (model_constraints : option matrix) : result matrix :=
  match self_constraints with
  | Some _ =>
      match model_constraints with
      | Some c => tf_matmul design c
      | None => Err (TypeError "matmul: None is not a tensor")
      end
  | None => Ok design
  end.

(** The fused contraction
    [einsum 'ofc,od->fcd' (einsum 'of,oc->ofc' W XH) XH']. *)
Definition Hblock (W XH XH' : matrix) : result tensor3 :=
  (T <- einsum_of_oc W XH ;; einsum_ofc_od T XH')%result.

Definition _aa_byobs_batched (self : HessianGLMALL) (m : model) : result tensor3 :=
  let W := _weight_hessian_aa self (X m) (mu m) (r m) in
  (XH <- constrained (self_constraints_loc self) (design_loc m) (constraints_loc m) ;;
   Hblock W XH XH)%result.

Definition _bb_byobs_batched (self : HessianGLMALL) (m : model) : result tensor3 :=
  let W := _weight_hessian_bb self (X m) (mu m) (r m) in
  (XH <- constrained (self_constraints_scale self) (design_scale m) (constraints_scale m) ;;
   Hblock W XH XH)%result.

Definition _ab_byobs_batched (self : HessianGLMALL) (m : model) : result tensor3 :=
  let W := _weight_hessian_ab self (X m) (mu m) (r m) in
  (XHloc <- constrained (self_constraints_loc self) (design_loc m) (constraints_loc m) ;;
   XHscale <- constrained (self_constraints_scale self) (design_scale m) (constraints_scale m) ;;
   Hblock W XHloc XHscale)%result.

(** The returned tensor: a rank-3 Hessian, or the scalar [tf.zeros(())]. *)
Inductive hessian : Type :=
| H3 (t : tensor3)
| HZeros.

Definition hessian_analytic (self : HessianGLMALL) (m : model) : result hessian :=
  if compute_a self && compute_b self then
    (H_aa <- _aa_byobs_batched self m ;;
     H_bb <- _bb_byobs_batched self m ;;
     H_ab <- _ab_byobs_batched self m ;;
     let H_ba := tf_transpose_021 H_ab in
     top <- tf_concat_axis2 H_aa H_ab ;;
     bottom <- tf_concat_axis2 H_ba H_bb ;;
     H <- tf_concat_axis1 top bottom ;;
     Ok (H3 H))%result
  else if compute_a self && negb (compute_b self) then
    (H <- _aa_byobs_batched self m ;; Ok (H3 H))%result
  else if negb (compute_a self) && compute_b self then
    (H <- _bb_byobs_batched self m ;; Ok (H3 H))%result
  else Ok HZeros.

(** *** Notions used to state the properties *)

(** The entry of the assembled Hessian [[aa, ab], [ab^T, bb]] at row [i] and
    column [j] of feature [f]; the lower left block reads the transposed
    entry of [ab]. *)
Definition block_entry (aa ab bb : tensor3) (f i j : nat) : Q :=
  let pa := d1 aa in
  if (i <? pa)%nat then
    if (j <? pa)%nat then t_at aa f i j else t_at ab f i (j - pa)%nat
  else
    if (j <? pa)%nat then t_at ab f j (i - pa)%nat
    else t_at bb f (i - pa)%nat (j - pa)%nat.

(** A small model: two observations, one feature; one location and two
    dispersion coefficients; no constraints.  The weights are toy weights. *)
Definition sample_model : model :=
  Model (Matrix 2 1 (fun o _ => inject_Z (Z.of_nat o)))
        (Matrix 2 1 (fun _ _ => 2))
        (Matrix 2 1 (fun _ _ => 3))
        (Matrix 2 1 (fun _ _ => 1))
        (Matrix 2 2 (fun o c => if (o =? c)%nat then 1 else 0))
        None None.

Definition sample_builder : HessianGLMALL :=
  Builder true true None None
    (fun X mu r => Matrix (m_rows X) (m_cols X) (fun o f => - m_at mu o f))
    (fun X mu r => Matrix (m_rows X) (m_cols X) (fun o f => - m_at r o f))
    (fun X mu r => Matrix (m_rows X) (m_cols X) (fun o f => m_at X o f)).

(** The entries of feature 0 of a returned Hessian, row by row, in lowest
    terms. *)
Definition sample_rows (h : result hessian) : list (list Q) :=
  match h with
  | Ok (H3 H) =>
      map (fun i => map (fun j => Qred (t_at H 0 i j)) (seq 0 (d2 H)))
          (seq 0 (d1 H))
  | _ => []
  end.

(** The identity matrix of size [p]. *)
Definition eye (p : nat) : matrix :=
  Matrix p p (fun i j => if (i =? j)%nat then 1 else 0).

(** The builder and the model with the identity as location constraints. *)
Definition with_loc_constraints (self : HessianGLMALL) (c : matrix) : HessianGLMALL :=
  Builder (compute_a self) (compute_b self) (Some c) (self_constraints_scale self)
          (_weight_hessian_aa self) (_weight_hessian_bb self) (_weight_hessian_ab self).

Definition model_with_loc_constraints (m : model) (c : matrix) : model :=
  Model (X m) (mu m) (r m) (design_loc m) (design_scale m) (Some c)
        (constraints_scale m).

Definition without_loc_constraints (self : HessianGLMALL) : HessianGLMALL :=
  Builder (compute_a self) (compute_b self) None (self_constraints_scale self)
          (_weight_hessian_aa self) (_weight_hessian_bb self) (_weight_hessian_ab self).

End Hessians.

(** ** base/estimator.py *)

Module Estimator.

(** *** Floating-point values with the IEEE special values

    A finite value is an exact rational.  Zero is unsigned: a non-zero number
    divided by zero takes the sign of the numerator. *)
Inductive fval : Type :=
| Fin (q : Q)
| PInf
| NInf
| NaN.

Definition Qltb (a b : Q) : bool :=
  match (a ?= b)%Q with Lt => true | _ => false end.

Definition Qeqb (a b : Q) : bool :=
  match (a ?= b)%Q with Eq => true | _ => false end.

Definition fneg (a : fval) : fval :=
  match a with
  | Fin q => Fin (- q)
  | PInf => NInf
  | NInf => PInf
  | NaN => NaN
  end.

Definition fadd (a b : fval) : fval :=
  match a, b with
  | NaN, _ | _, NaN => NaN
  | Fin x, Fin y => Fin (x + y)
  | PInf, NInf | NInf, PInf => NaN
  | PInf, _ | _, PInf => PInf
  | NInf, _ | _, NInf => NInf
  end.

Definition fsub (a b : fval) : fval := fadd a (fneg b).

Definition fdiv (a b : fval) : fval :=
  match a, b with
  | NaN, _ | _, NaN => NaN
  | Fin x, Fin y =>
      if Qeqb y 0 then
        if Qltb 0 x then PInf else if Qltb x 0 then NInf else NaN
      else Fin (x / y)
  | Fin _, _ => Fin 0
  | PInf, Fin y => if Qltb y 0 then NInf else PInf
  | NInf, Fin y => if Qltb y 0 then PInf else NInf
  | _, _ => NaN
  end.

Definition fabs (a : fval) : fval :=
  match a with
  | Fin q => Fin (Qabs q)
  | PInf | NInf => PInf
  | NaN => NaN
  end.

(** [np.square]. *)
Definition np_square (a : fval) : fval :=
  match a with
  | Fin q => Fin (q * q)
  | PInf | NInf => PInf
  | NaN => NaN
  end.

(** [a < b]; false as soon as one side is [nan]. *)
Definition flt (a b : fval) : bool :=
  match a, b with
  | NaN, _ | _, NaN => false
  | Fin x, Fin y => Qltb x y
  | NInf, NInf | PInf, _ => false
  | NInf, _ => true
  | Fin _, PInf => true
  | Fin _, NInf => false
  end.

(** [np.isinf]. *)
Definition isinf (a : fval) : bool :=
  match a with PInf | NInf => true | _ => false end.

Definition of_nat (n : nat) : fval := Fin (inject_Z (Z.of_nat n)).
Definition of_Z (z : Z) : fval := Fin (inject_Z z).

(** [np.sum] and [np.mean] of a one-dimensional array. *)
Definition np_sum (l : list fval) : fval := fold_left fadd l (Fin 0).

Definition np_mean (l : list fval) : fval := fdiv (np_sum l) (of_nat (List.length l)).

(** [np.tile(v, n)]. *)
Definition np_tile (v : fval) (n : nat) : list fval := repeat v n.

(** [l[i] = v] for an index inside the array. *)
Fixpoint set_nth {A : Type} (i : nat) (v : A) (l : list A) : list A :=
  match l with
  | [] => []
  | h :: t =>
      match i with
      | O => v :: t
      | S i' => h :: set_nth i' v t
      end
  end.

(** [l[-k]] for [k >= 1]. *)
Definition nth_from_end (k : nat) (l : list fval) : result fval :=
  if (k <=? List.length l)%nat
  then Ok (nth (List.length l - k) l NaN)
  else Err (IndexError "index out of bounds").

(** Python's [a % n] for a non-negative modulus. *)
Definition py_mod (a : Z) (n : nat) : result nat :=
  if (n =? 0)%nat
  then Err (ZeroDivisionError "integer division or modulo by zero")
  else Ok (Z.to_nat (a mod Z.of_nat n)).

(** Truth value of what [should_stop] returns ([None] is falsy). *)
Definition truthy (v : option bool) : bool :=
  match v with Some b => b | None => false end.

Definition has_inf (l : list fval) : bool := existsb isinf l.

(** *** _train_to_convergence *)

Section TrainToConvergence.

Local Open Scope string_scope.
Local Open Scope result_scope.

(** [stat_utils.welch_t_test] is not among the sources: the p-value of the
    two-sample test on the two windows is a parameter. *)
Variable welch_t_test : list fval -> list fval -> fval.

(** The session: its [k]-th run of [(global_step, train_op)] followed by the
    run of the loss yields [(train_step, global_loss)]. *)
Variable session : nat -> Z * fval.

Variable convergence_criteria : string.
Variable stopping_criteria : fval.

(** The closure [should_stop], with the two windows it reads made explicit. *)
Definition should_stop (previous_loss_hist loss_hist : list fval) (step : Z)
    : result (option bool) :=
  m <- py_mod step (List.length loss_hist) ;;
  if (m =? 0)%nat && negb (has_inf previous_loss_hist) then
    if convergence_criteria =? "loss_change_to_last" then
      a <- nth_from_end 2 loss_hist ;;
      b <- nth_from_end 1 loss_hist ;;
      let change := fsub a b in
      Ok (Some (flt change stopping_criteria))
    else if convergence_criteria =? "moving_average" then
      let change := fsub (np_mean previous_loss_hist) (np_mean loss_hist) in
      Ok (Some (flt change stopping_criteria))
    else if convergence_criteria =? "scaled_moving_average" then
      let change := fdiv (fsub (np_mean previous_loss_hist) (np_mean loss_hist))
                         (np_mean previous_loss_hist) in
      Ok (Some (flt change stopping_criteria))
    else if convergence_criteria =? "absolute_moving_average" then
      let change := fabs (fsub (np_mean previous_loss_hist) (np_mean loss_hist)) in
      Ok (Some (flt change stopping_criteria))
    else if convergence_criteria =? "t_test" then
      let pval := welch_t_test previous_loss_hist loss_hist in
      Ok (Some (negb (flt pval stopping_criteria)))
    else Ok None
  else Ok (Some false).

(** One pass through the body of [while True]: the windows after the pass
    and whether [break] is taken. *)
Definition iteration (k : nat) (previous_loss_hist loss_hist : list fval)
    : result (list fval * list fval * bool) :=
  let '(train_step, global_loss) := session k in
  m <- py_mod train_step (List.length loss_hist) ;;
  let previous_loss_hist :=
    if (m =? 1)%nat then loss_hist else previous_loss_hist in
  i <- py_mod (train_step - 1) (List.length loss_hist) ;;
  let loss_hist := set_nth i global_loss loss_hist in
  stop <- should_stop previous_loss_hist loss_hist train_step ;;
  Ok (previous_loss_hist, loss_hist, truthy stop).

(** Where the loop is after some passes. *)
Inductive outcome : Type :=
| Stopped (iterations : nat) (previous_loss_hist loss_hist : list fval)
| Running (iterations : nat) (previous_loss_hist loss_hist : list fval)
| Raised (e : exn).

Fixpoint loop (fuel k : nat) (previous_loss_hist loss_hist : list fval) : outcome :=
  match fuel with
  | O => Running k previous_loss_hist loss_hist
  | S fuel' =>
      match iteration k previous_loss_hist loss_hist with
      | Err e => Raised e
      | Ok (prev, cur, stop) =>
          if stop then Stopped (S k) prev cur else loop fuel' (S k) prev cur
      end
  end.

(** [_train_to_convergence], run for at most [fuel] passes. *)
Definition _train_to_convergence (loss_window_size fuel : nat) : outcome :=
  loop fuel 0 (np_tile PInf loss_window_size) (np_tile PInf loss_window_size).

(** The value returned once the loop has stopped: [np.mean(loss_hist)]. *)
Definition returned (o : outcome) : option fval :=
  match o with
  | Stopped _ _ loss_hist => Some (np_mean loss_hist)
  | _ => None
  end.

End TrainToConvergence.

(** *** The per-feature loop of [train] ("all_converged_ll") *)

(** Elementwise operation on two one-dimensional arrays of the same length
    (arrays of one element are not broadcast here: every array of the loop
    has one entry per feature). *)
Definition vzip {A B C : Type} (f : A -> B -> C) (a : list A) (b : list B)
    : result (list C) :=
  if (List.length a =? List.length b)%nat
  then Ok (map (fun p => f (fst p) (snd p)) (combine a b))
  else Err (ValueError "operands could not be broadcast together").

Definition np_logical_or : list bool -> list bool -> result (list bool) := vzip orb.
Definition np_logical_and : list bool -> list bool -> result (list bool) := vzip andb.

(** [arr < c] for a scalar [c]. *)
Definition vlt (a : list fval) (c : fval) : list bool := map (fun x => flt x c) a.

(** [np.zeros([n])] and [np.repeat(False, n)]. *)
Definition np_zeros (n : nat) : list fval := repeat (Fin 0) n.
Definition np_repeat_false (n : nat) : list bool := repeat false n.

(** [list(l).index(x)]. *)
Fixpoint index_of (x : nat) (l : list nat) : result nat :=
  match l with
  | [] => Err (ValueError "x is not in list")
  | h :: t => if (h =? x)%nat then Ok O
              else match index_of x t with
                   | Ok i => Ok (S i)
                   | Err e => Err e
                   end
  end.

Fixpoint mapM {A B : Type} (f : A -> result B) (l : list A) : result (list B) :=
  match l with
  | [] => Ok []
  | h :: t =>
      match f h with
      | Err e => Err e
      | Ok b => match mapM f t with
                | Ok bs => Ok (b :: bs)
                | Err e => Err e
                end
      end
  end.

Definition get_item {A : Type} (l : list A) (i : nat) : result A :=
  match nth_error l i with
  | Some a => Ok a
  | None => Err (IndexError "index out of bounds")
  end.

(** [m[idx, :]] and [m[:, idx]] for a list of indices. *)
Definition take_rows (m : list (list fval)) (idx : list nat) : result (list (list fval)) :=
  mapM (get_item m) idx.

Definition take_cols (m : list (list fval)) (idx : list nat) : result (list (list fval)) :=
  mapM (fun row => mapM (get_item row) idx) m.

(** [np.sum(m, axis=0)] of an array with at least one row. *)
Definition sum_axis0 (m : list (list fval)) : result (list fval) :=
  match m with
  | [] => Ok []
  | row :: rest =>
      fold_left (fun acc x => match acc with
                              | Ok a => vzip fadd a x
                              | Err e => Err e
                              end) rest (Ok row)
  end.

(** [np.sum(m, axis=1)]. *)
Definition sum_axis1 (m : list (list fval)) : list fval := map np_sum m.

(** The constants of [pkg_constants] the loop reads; the module is not among
    the sources. *)
Record pkg_constants : Type := PkgConstants {
  GTOL_LL_BY_FEATURE_LOC : fval;
  GTOL_LL_BY_FEATURE_SCALE : fval;
  XTOL_LL_BY_FEATURE_LOC : fval;
  XTOL_LL_BY_FEATURE_SCALE : fval
}.

(** The attributes of [self.model] the loop reads. *)
Record estimator_graph : Type := EstimatorGraph {
  n_features : nat;                        (* model_vars.n_features, converged.shape[0] *)
  num_observations : nat;                  (* full_data_model.num_observations *)
  idx_train : list nat;                    (* full_data_model.idx_train *)
  idx_train_loc : list nat;                (* full_data_model.idx_train_loc *)
  idx_train_scale : list nat;              (* full_data_model.idx_train_scale *)
  model_vars_idx_train_loc : list nat;     (* model_vars.idx_train_loc *)
  model_vars_idx_train_scale : list nat    (* model_vars.idx_train_scale *)
}.

(** What the session returns in one pass of the loop. *)
Record update : Type := Update {
  train_step : Z;
  x_step : list (list fval);               (* parameters x features *)
  features_updated : list bool;
  ll_current : list fval;
  jac_train : list (list fval)             (* features x trained parameters *)
}.

Section AllConverged.

Local Open Scope string_scope.
Local Open Scope result_scope.

Variable C : pkg_constants.
Variable g : estimator_graph.

(** [np.sqrt] on one value. *)
Variable np_sqrt : fval -> fval.

Variable convergence_criteria : string.
Variable stopping_criteria : fval.

(** [sqrt(sum(square(abs(x_step[idx, :])), axis=0))], or zeros. *)
Definition x_norm (len_idx : list nat) (idx : list nat) (x_step : list (list fval))
    : result (list fval) :=
  if (0 <? List.length len_idx)%nat then
    sel <- take_rows x_step idx ;;
    s <- sum_axis0 (map (map (fun x => np_square (fabs x))) sel) ;;
    Ok (map np_sqrt s)
  else Ok (np_zeros (n_features g)).

(** [sum(jac_train[:, idx_jac], axis=1) / n_obs], or zeros. *)
Definition grad_norm (idx : list nat) (jac_train : list (list fval))
    : result (list fval) :=
  if (0 <? List.length idx)%nat then
    idx_jac <- mapM (fun x => index_of x (idx_train g)) idx ;;
    sel <- take_cols jac_train idx_jac ;;
    Ok (map (fun s => fdiv s (of_nat (num_observations g))) (sum_axis1 sel))
  else Ok (np_zeros (n_features g)).

(** [(ll_prev - ll_current) / ll_prev < stopping_criteria]. *)
Definition ll_converged (ll_prev ll_cur : list fval) : result (list bool) :=
  vzip (fun p c => flt (fdiv (fsub p c) p) stopping_criteria) ll_prev ll_cur.

(** The convergence status after one pass, from the status before it. *)
Definition update_converged (converged_prev : list bool) (ll_prev : list fval)
    (u : update) : result (list bool) :=
  x_norm_loc <- x_norm (idx_train_loc g) (model_vars_idx_train_loc g) (x_step u) ;;
  x_norm_scale <- x_norm (idx_train_scale g) (model_vars_idx_train_scale g) (x_step u) ;;
  ll_conv <- ll_converged ll_prev (ll_current u) ;;
  f_branch <- np_logical_and ll_conv (features_updated u) ;;
  converged_current <- np_logical_or converged_prev f_branch ;;
  grad_norm_loc <- grad_norm (idx_train_loc g) (jac_train u) ;;
  grad_norm_scale <- grad_norm (idx_train_scale g) (jac_train u) ;;
  g_branch <- np_logical_and (vlt grad_norm_loc (GTOL_LL_BY_FEATURE_LOC C))
                             (vlt grad_norm_scale (GTOL_LL_BY_FEATURE_SCALE C)) ;;
  converged_current <- np_logical_or converged_current g_branch ;;
  if convergence_criteria =? "all_converged_ll" then
    x_branch <- np_logical_and (vlt x_norm_loc (XTOL_LL_BY_FEATURE_LOC C))
                               (vlt x_norm_scale (XTOL_LL_BY_FEATURE_SCALE C)) ;;
    np_logical_or converged_current x_branch
  else Ok converged_current.

(** The session of the per-feature loop: the loss per feature before the
    first pass, and what the [k]-th pass fetches. *)
Variable ll_init : list fval.
Variable run_update : nat -> update.

Inductive feature_outcome : Type :=
| FDone (iterations : nat) (converged : list bool) (ll : list fval)
| FRunning (iterations : nat) (converged : list bool) (ll : list fval)
| FRaised (e : exn).

(** [while np.any(converged_current == False)], for at most [fuel] passes. *)
Fixpoint feature_loop (fuel k : nat) (converged_current : list bool)
    (ll_cur : list fval) : feature_outcome :=
  match fuel with
  | O => FRunning k converged_current ll_cur
  | S fuel' =>
      if existsb negb converged_current then
        let u := run_update k in
        match update_converged converged_current ll_cur u with
        | Err e => FRaised e
        | Ok conv => feature_loop fuel' (S k) conv (ll_current u)
        end
      else FDone k converged_current ll_cur
  end.

(** The branch of [train] for "all_converged_ll": the status is set to all
    false, then the loop runs. *)
Definition train_all_converged (fuel : nat) : feature_outcome :=
  feature_loop fuel 0 (np_repeat_false (n_features g)) ll_init.

Definition converged_of (o : feature_outcome) : option (list bool) :=
  match o with
  | FDone _ c _ | FRunning _ c _ => Some c
  | FRaised _ => None
  end.

End AllConverged.

(** *** TFEstimator.train *)

Section Train.

Local Open Scope string_scope.

Variable welch_t_test : list fval -> list fval -> fval.
Variable np_sqrt : fval -> fval.
Variable C : pkg_constants.
Variable g : estimator_graph.

(** The session as [train] uses it: the global step before training, the
    [k]-th run of [(global_step, train_op)] with the loss, and the runs of
    the per-feature loop. *)
Record tf_session : Type := Session {
  run_global_step : Z;
  run_train : nat -> Z * fval;
  run_ll_init : list fval;
  run_update : nat -> update
}.

Variable session : tf_session.

Inductive step_outcome : Type :=
| StepDone (iterations : nat) (train_step : Z)
| StepRunning (iterations : nat) (train_step : Z).

(** [while train_step < stopping_criteria]. *)
Fixpoint step_loop (stopping_criteria : fval) (fuel k : nat) (step : Z) : step_outcome :=
  match fuel with
  | O => StepRunning k step
  | S fuel' =>
      if flt (of_Z step) stopping_criteria
      then step_loop stopping_criteria fuel' (S k) (fst (run_train session k))
      else StepDone k step
  end.

Inductive train_outcome : Type :=
| TrainedByStep (o : step_outcome)
| TrainedByFeature (o : feature_outcome)
| TrainedToConvergence (o : outcome).

Definition default_stopping_criteria (convergence_criteria : string) : fval :=
  if convergence_criteria =? "step" then Fin 5000
  else if existsb (String.eqb convergence_criteria)
            ["difference"; "moving_agerage"; "absolute_moving_average"]
  then Fin (1 # 100000)
  else Fin (5 # 100).

(** [TFEstimator.train], each loop run for at most [fuel] passes. *)
Definition train (convergence_criteria : string) (loss_window_size : option nat)
    (stopping_criteria : option fval) (fuel : nat) : train_outcome :=
  let loss_window_size :=
    match loss_window_size with Some n => n | None => 100%nat end in
  let stopping_criteria :=
    match stopping_criteria with
    | Some s => s
    | None => default_stopping_criteria convergence_criteria
    end in
  if convergence_criteria =? "step" then
    TrainedByStep (step_loop stopping_criteria fuel 0 (run_global_step session))
  else if existsb (String.eqb convergence_criteria) ["all_converged_ll"] then
    TrainedByFeature
      (train_all_converged C g np_sqrt convergence_criteria stopping_criteria
         (run_ll_init session) (run_update session) fuel)
  else
    TrainedToConvergence
      (_train_to_convergence welch_t_test (run_train session)
         convergence_criteria stopping_criteria loss_window_size fuel).

(** Whether a run of [train] has raised. *)
Definition train_raised (o : train_outcome) : option exn :=
  match o with
  | TrainedByFeature (FRaised e) => Some e
  | TrainedToConvergence (Raised e) => Some e
  | _ => None
  end.

End Train.

(** *** TFEstimator.get *)

Section Get.

Local Open Scope string_scope.
Local Open Scope result_scope.

(** The value of a tensor. *)
Variable value : Type.

(** [self.param_shapes()], by its keys, and [self.model.__getattribute__]
    followed by the run of the session. *)
Variable param_shapes : list string.
Variable model_attribute : string -> option value.

Inductive key : Type :=
| KeyStr (s : string)
| KeyIterable (l : list string)
| KeyOther.

Inductive fetched : Type :=
| Single (v : value)
| Dict (d : list (string * value))
| FetchedNone.

Definition in_shapes (k : string) : bool := existsb (String.eqb k) param_shapes.

Definition getattribute (s : string) : result value :=
  match model_attribute s with
  | Some v => Ok v
  | None => Err (AttributeError s)
  end.

(** The keys of a dict built from [l]: each key once, at its first place. *)
Fixpoint dict_keys (seen l : list string) : list string :=
  match l with
  | [] => []
  | s :: t =>
      if existsb (String.eqb s) seen then dict_keys seen t
      else s :: dict_keys (s :: seen) t
  end.

Definition _get_unsafe (k : key) : result fetched :=
  match k with
  | KeyStr s => v <- getattribute s ;; Ok (Single v)
  | KeyIterable l =>
      d <- mapM (fun s => v <- getattribute s ;; Ok (s, v)) (dict_keys [] l) ;;
      Ok (Dict d)
  | KeyOther => Ok FetchedNone
  end.

Definition unknown_parameter (k : string) : exn :=
  ValueError ("Unknown parameter " ++ k).

(** The first key of [l] that is not a parameter. *)
Fixpoint first_unknown (l : list string) : option string :=
  match l with
  | [] => None
  | k :: t => if in_shapes k then first_unknown t else Some k
  end.

Definition get (k : key) : result fetched :=
  match k with
  | KeyStr s =>
      if in_shapes s then _get_unsafe k else Err (unknown_parameter s)
  | KeyIterable l =>
      match first_unknown l with
      | Some bad => Err (unknown_parameter bad)
      | None => _get_unsafe k
      end
  | KeyOther => _get_unsafe k
  end.

End Get.

(** *** MonitoredTFEstimator.initialize *)

Inductive hook : Type :=
| NanTensorHook
| TimedRunHook (run_steps : option nat) (run_secs : option Q) (request : list string)
| StopAtStepHook (last_step : nat)
| StopAtLossHook (min_loss_change : Q) (loss_averaging_steps : nat).

(** The session [initialize] creates. *)
Inductive created_session : Type :=
| MonitoredTrainingSession (checkpoint_dir : option string) (hooks : list hook)
    (save_checkpoint_steps : option nat) (save_checkpoint_secs : option Q)
    (save_summaries_steps : option nat) (save_summaries_secs : option Q)
| PlainSession.

Definition is_none {A : Type} (o : option A) : bool :=
  match o with None => true | Some _ => false end.

Definition opt_list {A : Type} (o : option A) : list A :=
  match o with Some a => [a] | None => [] end.

(** [{p: self.model.__getattribute__(p) for p in export}]: the tensors to
    export by name; the first name that is no attribute of the model
    raises [AttributeError]. *)
Definition call_request_tensors (value : Type)
    (model_attribute : string -> option value) (export : list string)
    : result (list (string * value)) :=
  mapM (fun p => bind (getattribute value model_attribute p) (fun v => Ok (p, v)))
       export.

(** [MonitoredTFEstimator.initialize], on a model whose attributes are
    [model_attribute]. *)
Definition initialize (value : Type) (model_attribute : string -> option value)
    (working_dir : option string)
    (save_checkpoint_steps : option nat) (save_checkpoint_secs : option Q)
    (save_summaries_steps : option nat) (save_summaries_secs : option Q)
    (stop_at_step : option nat) (stop_below_loss_change : option Q)
    (loss_averaging_steps : nat)
    (export_steps : option nat) (export_secs : option Q)
    (export : option (list string))
    (use_monitored_session : bool) : result created_session :=
  if is_none working_dir &&
     negb (forallb (fun b : bool => b)
             [is_none save_checkpoint_steps; is_none save_checkpoint_secs;
              is_none save_summaries_steps; is_none save_summaries_secs;
              is_none export_steps; is_none export_secs])
  then Err (ValueError "No working_dir provided but actions saving data requested")
  else
    let timed :=
      if negb (is_none export_secs) || negb (is_none export_steps) then
        match export with
        | Some ps =>
            bind (call_request_tensors value model_attribute ps)
                 (fun _ => Ok [TimedRunHook export_steps export_secs
                                 (dict_keys [] ps)])
        | None => Err (TypeError "'NoneType' object is not iterable")
        end
      else Ok [] in
    match timed with
    | Err e => Err e
    | Ok timed =>
        let hooks :=
          [NanTensorHook] ++ timed
          ++ map StopAtStepHook (opt_list stop_at_step)
          ++ map (fun c => StopAtLossHook c loss_averaging_steps)
                 (opt_list stop_below_loss_change) in
        if use_monitored_session
        then Ok (MonitoredTrainingSession working_dir hooks
                   save_checkpoint_steps save_checkpoint_secs
                   save_summaries_steps save_summaries_secs)
        else Ok PlainSession
    end.

(** *** Notions used to state the properties *)

(** Number of entries of a window that are not infinite. *)
Definition count_finite (l : list fval) : nat :=
  List.length (filter (fun x => negb (isinf x)) l).

(** The invariant of the loop after [k] passes with window size [n]: the
    current window has at most [k] finite entries, and a previous window
    without infinite entries has taken at least [n] passes. *)
Definition window_inv (n k : nat) (prev cur : list fval) : Prop :=
  List.length cur = n /\
  (count_finite cur <= k)%nat /\
  (has_inf prev = false -> (n <= k)%nat).

(** The relative loss improvement of feature [f] is below the threshold. *)
Definition loss_plateau (stopping_criteria : fval) (ll_prev : list fval)
    (u : update) (f : nat) : bool :=
  let p := nth f ll_prev NaN in
  flt (fdiv (fsub p (nth f (ll_current u) NaN)) p) stopping_criteria.

(** Both norms of feature [f] are below their tolerances. *)
Definition both_below (loc scale : result (list fval)) (tol_loc tol_scale : fval)
    (f : nat) : bool :=
  match loc, scale with
  | Ok l, Ok s => flt (nth f l NaN) tol_loc && flt (nth f s NaN) tol_scale
  | _, _ => false
  end.

Definition gradient_below (C : pkg_constants) (g : estimator_graph) (u : update)
    (f : nat) : bool :=
  both_below (grad_norm g (idx_train_loc g) (jac_train u))
             (grad_norm g (idx_train_scale g) (jac_train u))
             (GTOL_LL_BY_FEATURE_LOC C) (GTOL_LL_BY_FEATURE_SCALE C) f.

Definition step_below (C : pkg_constants) (g : estimator_graph)
    (np_sqrt : fval -> fval) (u : update) (f : nat) : bool :=
  both_below (x_norm g np_sqrt (idx_train_loc g) (model_vars_idx_train_loc g) (x_step u))
             (x_norm g np_sqrt (idx_train_scale g) (model_vars_idx_train_scale g) (x_step u))
             (XTOL_LL_BY_FEATURE_LOC C) (XTOL_LL_BY_FEATURE_SCALE C) f.

(** The names [should_stop] knows. *)
Definition windowed_criteria : list string :=
  ["loss_change_to_last"; "moving_average"; "scaled_moving_average";
   "absolute_moving_average"; "t_test"]%string.

(** A name [train] has no loop for. *)
Definition unknown_criterion (c : string) : bool :=
  negb (existsb (String.eqb c)
          ("step" :: "all_converged_ll" :: windowed_criteria)%string).

(** *** Sample data *)

(** A test that always reports the p-value [p]. *)
Definition constant_test (p : fval) : list fval -> list fval -> fval :=
  fun _ _ => p.

(** A session whose global step counts 1, 2, 3, ... and whose loss is [v]
    after every step. *)
Definition plateau_run (v : fval) : nat -> Z * fval :=
  fun k => (Z.of_nat (S k), v).

(** A session whose loss after step [k] is [100 / k]. *)
Definition falling_run : nat -> Z * fval :=
  fun k => (Z.of_nat (S k), Fin (100 # Pos.of_nat (S k))).

(** Two features, one location and one dispersion parameter. *)
Definition sample_graph : estimator_graph :=
  EstimatorGraph 2 10 [0; 1]%nat [0%nat] [1%nat] [0%nat] [1%nat].

Definition sample_constants : pkg_constants :=
  PkgConstants (Fin (1 # 1000)) (Fin (1 # 1000)) (Fin (1 # 1000)) (Fin (1 # 1000)).

(** One pass: feature 0 moves by a large step, its loss falls from 8 to 4
    and its gradient stays large; feature 1 was not updated, its loss stays
    at 8 and its gradient stays large. *)
Definition sample_update : update :=
  Update 1 [[Fin 1; Fin 1]; [Fin 1; Fin 1]] [true; false]
         [Fin 4; Fin 8]
         [[Fin 50; Fin 50]; [Fin 50; Fin 50]].

(** A later pass: feature 0 is updated and its loss no longer moves;
    feature 1 is still not updated and its loss stays the same. *)
Definition settled_update : update :=
  Update 2 [[Fin 1; Fin 1]; [Fin 1; Fin 1]] [true; false]
         [Fin 4; Fin 8]
         [[Fin 50; Fin 50]; [Fin 50; Fin 50]].

Definition sample_updates (k : nat) : update :=
  match k with
  | O => sample_update
  | _ => settled_update
  end.

(** Stands for [np.sqrt] in the sample runs: exact on 0, 1 and 4. *)
Definition sample_sqrt (x : fval) : fval :=
  match x with
  | Fin q => if Qeqb q 4 then Fin 2 else Fin q
  | other => other
  end.

Definition sample_session : tf_session :=
  Session 0 (plateau_run (Fin 1)) [Fin 8; Fin 8] sample_updates.

(** The global step the "step" loop tests before its [j]-th pass: the step
    fetched before training, then the step fetched by each pass. *)
Definition step_at (session : tf_session) (j : nat) : Z :=
  match j with
  | O => run_global_step session
  | S j' => fst (run_train session j')
  end.

(** Pass [p] is the first at which the global step is no longer below the
    budget: [while train_step < stopping_criteria] is left there. *)
Definition first_at_budget (session : tf_session) (stopping_criteria : fval)
    (p : nat) : Prop :=
  flt (of_Z (step_at session p)) stopping_criteria = false /\
  forall j, (j < p)%nat -> flt (of_Z (step_at session j)) stopping_criteria = true.


(** A session whose global step is [start] before training and advances by
    one in every pass. *)
Definition counting_session (start : Z) : tf_session :=
  Session start (fun k => ((start + Z.of_nat (S k))%Z, Fin 1)) [] sample_updates.

(** A pass after which every gradient of both features is zero. *)
Definition quiet_update : update :=
  Update 1 [[Fin 1; Fin 1]; [Fin 1; Fin 1]] [true; true]
         [Fin 4; Fin 8]
         [[Fin 0; Fin 0]; [Fin 0; Fin 0]].

(** The number of passes made and the current window, once the windowed
    loop has stopped or run out of fuel. *)
Definition passes_and_window (o : outcome) : option (nat * list fval) :=
  match o with
  | Stopped k _ cur | Running k _ cur => Some (k, cur)
  | Raised _ => None
  end.

(** The slot of the current window written at global step [s]. *)
Definition slot (n : nat) (s : Z) : nat := Z.to_nat ((s - 1) mod Z.of_nat n).

End Estimator.

(** ** models/base.py *)

Module Base.

Import Estimator.
Local Open Scope string_scope.
Local Open Scope result_scope.

(** [list(s)] for a string: its characters, each a string of length one. *)
Definition chars (s : string) : list string :=
  map (fun c => String c EmptyString) (list_ascii_of_string s).

Section BasicModel.

Variable value : Type.

(** [self.param_shapes()], by its keys, and [self.__getattribute__]. *)
Variable param_shapes : list string.
Variable attribute : string -> option value.

Definition self_getattribute (s : string) : result value :=
  match attribute s with
  | Some v => Ok v
  | None => Err (AttributeError s)
  end.

(** The check [for k in list(key)]: the first element that is not a
    parameter raises. *)
Definition check_keys (l : list string) : result unit :=
  match first_unknown param_shapes l with
  | Some bad => Err (unknown_parameter bad)
  | None => Ok tt
  end.

(** [BasicModel.get]. *)
Definition BasicModel_get (k : key) : result (fetched value) :=
  match k with
  | KeyStr s =>
      _ <- check_keys (chars s) ;;
      v <- self_getattribute s ;;
      Ok (Single value v)
  | KeyIterable l =>
      _ <- check_keys l ;;
      d <- mapM (fun s => v <- self_getattribute s ;; Ok (s, v)) (dict_keys [] l) ;;
      Ok (Dict value d)
  | KeyOther => Err (TypeError "object is not iterable")
  end.

End BasicModel.

(** *** BasicSimulator.data_to_anndata *)

(** The slots of an [AnnData] object, each by the names stored in it, in
    the order they were stored. *)
Record anndata : Type := AnnData {
  obs : list string;
  obsm : list string;
  var : list string;
  varm : list string;
  uns : list string
}.

Definition empty_anndata : anndata := AnnData [] [] [] [] [].

Definition dims_eqb (a b : list string) : bool :=
  if list_eq_dec string_dec a b then true else false.

(** [v.dims[0]]. *)
Definition first_dim (dims : list string) : result string :=
  match dims with
  | d :: _ => Ok d
  | [] => Err (IndexError "tuple index out of range")
  end.

(** One pass of the loop over [self.data.variables.items()]: the variable
    [k] with dimensions [dims] is stored in one slot. *)
Definition store_variable (adata : anndata) (k : string) (dims : list string)
    : result anndata :=
  if k =? "X" then Ok adata
  else if dims_eqb dims ["observations"] then
    Ok (AnnData (obs adata ++ [k]) (obsm adata) (var adata) (varm adata) (uns adata))
  else
    d <- first_dim dims ;;
    if d =? "observations" then
      Ok (AnnData (obs adata) (obsm adata ++ [k]) (var adata) (varm adata) (uns adata))
    else if dims_eqb dims ["features"] then
      Ok (AnnData (obs adata) (obsm adata) (var adata ++ [k]) (varm adata) (uns adata))
    else if d =? "features" then
      Ok (AnnData (obs adata) (obsm adata) (var adata) (varm adata ++ [k]) (uns adata))
    else
      Ok (AnnData (obs adata) (obsm adata) (var adata) (varm adata) (uns adata ++ [k])).

Fixpoint store_variables (adata : anndata) (vars : list (string * list string))
    : result anndata :=
  match vars with
  | [] => Ok adata
  | (k, dims) :: rest =>
      a <- store_variable adata k dims ;;
      store_variables a rest
  end.

(** Whether the data set has a variable named [k]. *)
Definition has_variable (k : string) (vars : list (string * list string)) : bool :=
  existsb (fun kv => fst kv =? k) vars.

(** [data_to_anndata], on the variables of [self.data] by name and
    dimensions.  The object is created from [self.data.X.values], which
    raises [AttributeError] for a data set without a variable [X]; its
    slots are empty before the loop. *)
Definition data_to_anndata (vars : list (string * list string)) : result anndata :=
  if has_variable "X" vars
  then store_variables empty_anndata vars
  else Err (AttributeError "X").

(** The names stored in an [AnnData] object. *)
Definition stored (a : anndata) : list string :=
  obs a ++ obsm a ++ var a ++ varm a ++ uns a.

(** A variable that is not [X] and has no dimension. *)
Definition is_scalar_variable (kv : string * list string) : bool :=
  negb (fst kv =? "X") && match snd kv with [] => true | _ => false end.

(** *** BasicModel.to_anndata *)

Section ToAnnData.

Variable value : Type.
Variable param_shapes : list string.
Variable attribute : string -> option value.

(** The parameters asked for: a string stands for the list holding it. *)
Definition requested (parm : key) : option (list string) :=
  match parm with
  | KeyStr s => Some [s]
  | KeyIterable l => Some l
  | KeyOther => None
  end.

(** The loop over [output.items()]: every value of [output] is a pair
    [(shapes[key], data[key])], and a pair has no attribute [dims]. *)
Fixpoint scan_output (keys : list string) : result unit :=
  match keys with
  | [] => Ok tt
  | k :: rest =>
      if k =? "X" then scan_output rest
      else Err (AttributeError "dims")
  end.

(** [BasicModel.to_anndata]. *)
Definition to_anndata (parm : key) (adata : anndata) : result anndata :=
  match requested parm with
  | None => Err (TypeError "object is not iterable")
  | Some l =>
      _ <- BasicModel_get value param_shapes attribute (KeyIterable l) ;;
      _ <- scan_output (dict_keys [] l) ;;
      Ok adata
  end.

End ToAnnData.

(** The variables of a small simulated data set. *)
Definition sample_variables : list (string * list string) :=
  [("X", ["observations"; "features"]);
   ("batch", ["observations"]);
   ("design", ["observations"; "design_params"]);
   ("size", ["features"]);
   ("loadings", ["features"; "factors"]);
   ("note", ["other"])].

End Base.

(** * Properties *)

(** ** nb/util.py *)

Module NBUtilFacts.

Import NBUtil.
Local Open Scope R_scope.

(** C10. A call of the constructor of [NegativeBinomial] with a value for
    [p] raises [ValueError], whatever the other arguments are: the guard
    nested under [if p is not None] tests [p] again. *)
Theorem NegativeBinomial_p_raises :
  forall (tc r variance probs logits mean : option tensor) (p : tensor),
    NegativeBinomial tc r variance (Some p) probs logits mean
    = Err (ValueError msg_probs).
Proof.
  intros tc r variance probs logits mean p.
  unfold NegativeBinomial.
  reflexivity.
Qed.

(** *** Shapes of the moment estimates *)

Lemma shape_reduce_weighted_mean (t : tensor) (w : option tensor) (ax : axis) :
  shape (reduce_weighted_mean t w ax) = reduced_shape t ax.
Proof.
  destruct w as [w|]; destruct ax; reflexivity.
Qed.

Lemma shape_mme_mean (X : tensor) (ax : axis) (w : option tensor) :
  shape (mme_mean X ax w) = reduced_shape X ax.
Proof. apply shape_reduce_weighted_mean. Qed.

Lemma shape_mme_variance (X : tensor) (ax : axis) (w : option tensor) :
  shape (mme_variance X ax w) = reduced_shape X ax.
Proof.
  unfold mme_variance.
  rewrite shape_reduce_weighted_mean.
  destruct ax; reflexivity.
Qed.

Lemma same_shape_true (a b : tensor) :
  shape a = shape b -> same_shape a b = true.
Proof.
  unfold shape, same_shape.
  intros H; injection H as Hr Hc.
  rewrite Hr, Hc, !Nat.eqb_refl.
  reflexivity.
Qed.

Lemma bidx_in_range (dim i : nat) : (i < dim)%nat -> bidx dim i = i.
Proof.
  unfold bidx.
  intros Hi.
  destruct (Nat.eqb_spec dim 1) as [E|E]; [lia | reflexivity].
Qed.

Lemma bat_in_range (t : tensor) (i j : nat) :
  (i < rows t)%nat -> (j < cols t)%nat -> bat t i j = at_ t i j.
Proof.
  intros Hi Hj.
  unfold bat.
  rewrite !bidx_in_range by assumption.
  reflexivity.
Qed.

Lemma tf_less_true (a b : tensor) (i j : nat) :
  (i < rows b)%nat -> (j < cols b)%nat ->
  at_ a i j < at_ b i j -> tf_less a b i j = true.
Proof.
  intros Hi Hj Hlt.
  unfold tf_less.
  rewrite bat_in_range by assumption.
  destruct (Rlt_dec (at_ a i j) (at_ b i j)); [reflexivity | contradiction].
Qed.

Lemma tf_less_false (a b : tensor) (i j : nat) :
  (i < rows b)%nat -> (j < cols b)%nat ->
  at_ b i j <= at_ a i j -> tf_less a b i j = false.
Proof.
  intros Hi Hj Hle.
  unfold tf_less.
  rewrite bat_in_range by assumption.
  destruct (Rlt_dec (at_ a i j) (at_ b i j)); [lra | reflexivity].
Qed.

(** *** The moment estimates of the two sample tensors *)

Lemma mme_mean_X_0004 : at_ (mme_mean X_0004 Axis0 None) 0 0 = 1.
Proof.
  unfold mme_mean, reduce_weighted_mean, tmap, reduce_sum, X_0004; simpl.
  lra.
Qed.

Lemma mme_variance_X_0004 : at_ (mme_variance X_0004 Axis0 None) 0 0 = 3.
Proof.
  unfold mme_variance, reduce_weighted_mean, tmap, reduce_sum.
  cbn [at_ rows cols reduced_size tf_square tf_sub tmap tmap2 rsum].
  unfold bat.
  change (rows (mme_mean X_0004 Axis0 None)) with 1%nat.
  change (cols (mme_mean X_0004 Axis0 None)) with 1%nat.
  change (rows X_0004) with 4%nat.
  cbn [bidx Nat.eqb rsum].
  rewrite mme_mean_X_0004.
  unfold X_0004; simpl.
  lra.
Qed.

(** The zero-variance feature of [X_22]: the estimate of [r] is the largest
    [float32] number. *)
Example fit_mme_zero_variance :
  exists d,
    fit_mme X_22 Axis0 None None float32 = Ok d /\
    at_ (mme_mean X_22 Axis0 None) 0 0 = 2 /\
    at_ (mme_variance X_22 Axis0 None) 0 0 = 0 /\
    at_ (nb_r d) 0 0 = dtype_max float32.
Proof.
  assert (Hm : at_ (mme_mean X_22 Axis0 None) 0 0 = 2).
  { unfold mme_mean, reduce_weighted_mean, tmap, reduce_sum, X_22; simpl. lra. }
  assert (Hv : at_ (mme_variance X_22 Axis0 None) 0 0 = 0).
  { unfold mme_variance, reduce_weighted_mean, tmap, reduce_sum.
    cbn [at_ rows cols reduced_size tf_square tf_sub tmap tmap2 rsum].
    unfold bat.
    change (rows (mme_mean X_22 Axis0 None)) with 1%nat.
    change (cols (mme_mean X_22 Axis0 None)) with 1%nat.
    change (rows X_22) with 2%nat.
    cbn [bidx Nat.eqb rsum].
    rewrite Hm.
    unfold X_22; simpl. lra. }
  unfold fit_mme; cbn [mme_replace tf_where_value]; unfold tf_where.
  rewrite same_shape_true by reflexivity.
  cbn [bind NegativeBinomial].
  eexists; split; [reflexivity|].
  split; [exact Hm|].
  split; [exact Hv|].
  cbn [nb_r total_count at_].
  rewrite tf_less_false.
  - reflexivity.
  - change (rows (mme_variance X_22 Axis0 None)) with 1%nat. lia.
  - change (cols (mme_variance X_22 Axis0 None)) with 1%nat. lia.
  - rewrite Hm, Hv. lra.
Qed.

(** *** Clipping and the constants of the data types *)

Lemma clip_bounds (x lo hi : R) : lo <= hi -> lo <= clip x lo hi <= hi.
Proof.
  intros Hle.
  unfold clip.
  split.
  - apply Rmax_r.
  - apply Rmax_lub; [apply Rmin_r | exact Hle].
Qed.

Lemma clip_inside (x lo hi : R) : lo <= x -> x <= hi -> clip x lo hi = x.
Proof.
  intros Hlo Hhi.
  unfold clip.
  rewrite Rmin_left by exact Hhi.
  apply Rmax_left; exact Hlo.
Qed.

Lemma clip_below (x lo hi : R) : x <= lo -> lo <= hi -> clip x lo hi = lo.
Proof.
  intros Hlo Hhi.
  unfold clip.
  rewrite Rmin_left by lra.
  apply Rmax_right; exact Hlo.
Qed.

Lemma ln_nonpos_arg (x : R) : x <= 0 -> ln x = 0.
Proof.
  intros Hx.
  unfold ln.
  destruct (Rlt_dec 0 x) as [H|H]; [exfalso; lra | reflexivity].
Qed.

Lemma exp_le_mono (x y : R) : x <= y -> exp x <= exp y.
Proof.
  intros [Hlt|Heq].
  - left; apply exp_increasing; exact Hlt.
  - subst; right; reflexivity.
Qed.

Lemma pow2_ge_1 (n : nat) : 1 <= 2 ^ n.
Proof. apply pow_R1_Rle; lra. Qed.

Lemma inv_pow2_bounds (n : nat) : 0 < / 2 ^ n <= 1.
Proof.
  pose proof (pow2_ge_1 n) as H.
  split.
  - apply Rinv_0_lt_compat; lra.
  - rewrite <- Rinv_1.
    apply Rinv_le_contravar; lra.
Qed.

Lemma dtype_max_ge_1 (dt : dtype) : 1 <= dtype_max dt.
Proof.
  destruct dt; unfold dtype_max.
  - pose proof (inv_pow2_bounds 23) as [_ H1].
    pose proof (pow2_ge_1 127) as H2.
    nra.
  - pose proof (inv_pow2_bounds 52) as [_ H1].
    pose proof (pow2_ge_1 1023) as H2.
    nra.
Qed.

Lemma np_log_max_pos (dt : dtype) : 0 < np_log_max dt.
Proof. destruct dt; unfold np_log_max; lra. Qed.

Lemma np_log_tiny_le (dt : dtype) : np_log_tiny dt <= -1.
Proof. destruct dt; unfold np_log_tiny; lra. Qed.

(** What exponentiating an initial log-value gives back: the number
    itself clipped to [[1, exp hi]]. *)
Lemma exp_clip_ln (x hi : R) :
  0 <= hi -> exp (clip (ln x) (ln 1) hi) = Rmax (Rmin x (exp hi)) 1.
Proof.
  intros Hhi.
  rewrite ln_1.
  assert (Hehi : 1 <= exp hi) by (rewrite <- exp_0; apply exp_le_mono; exact Hhi).
  destruct (Rle_lt_dec x 0) as [Hx|Hx].
  - rewrite (ln_nonpos_arg x Hx).
    rewrite clip_inside by lra.
    rewrite exp_0, Rmin_left by lra.
    symmetry; apply Rmax_right; lra.
  - destruct (Rle_lt_dec (ln x) hi) as [Hle|Hgt].
    + assert (Hxe : x <= exp hi)
        by (rewrite <- (exp_ln x Hx); apply exp_le_mono; exact Hle).
      rewrite (Rmin_left x) by exact Hxe.
      destruct (Rle_lt_dec 0 (ln x)) as [Hpos|Hneg].
      * rewrite clip_inside by assumption.
        rewrite exp_ln by exact Hx.
        assert (1 <= x).
        { rewrite <- (exp_ln x Hx), <- exp_0. apply exp_le_mono; exact Hpos. }
        symmetry; apply Rmax_left; assumption.
      * rewrite clip_below by lra.
        rewrite exp_0.
        assert (x <= 1).
        { rewrite <- (exp_ln x Hx), <- exp_0. apply exp_le_mono; lra. }
        symmetry; apply Rmax_right; assumption.
    + assert (Hxe : exp hi <= x)
        by (rewrite <- (exp_ln x Hx); apply exp_le_mono; lra).
      rewrite (Rmin_right x) by exact Hxe.
      unfold clip.
      rewrite Rmin_right by lra.
      rewrite Rmax_left by lra.
      symmetry; apply Rmax_left; exact Hehi.
Qed.

(** *** fit with [optimizable=True] *)

(** Without replacement values of the caller [fit_mme] returns. *)
Lemma fit_mme_default_ok (X : tensor) (ax : axis) (weights : option tensor)
    (dt : dtype) :
  exists d, fit_mme X ax weights None dt = Ok d.
Proof.
  unfold fit_mme; cbn [mme_replace tf_where_value]; unfold tf_where.
  rewrite same_shape_true.
  - cbn [bind NegativeBinomial]. eexists; reflexivity.
  - unfold mme_replace, tf_fill, shape; cbn [rows cols fst snd tf_div tmap2 tf_square tmap].
    pose proof (shape_mme_mean X ax weights) as Hm.
    pose proof (shape_mme_variance X ax weights) as Hv.
    unfold shape in Hm, Hv.
    congruence.
Qed.

(** C9, as the code has it.  An optimizable fit returns two variables whose
    initial values are [log r] and [log mean] of the moment estimate clipped
    to [[log 1, log max / 8]].  The variables themselves are not clipped
    afterwards: the distribution read from them takes [exp] of their current
    values clipped to [[log smallest-positive, log max]], the bounds being
    the numbers [np.log] returns.  At the initial values this second clip
    changes nothing, and the parameters read back are the moment estimates
    clipped to [[1, exp (log max / 8)]]. *)
Theorem fit_optimizable_clipping :
  forall (X : tensor) (ax : axis) (weights : option tensor) (dt : dtype),
    let lo := np_log_tiny dt in
    let hi := np_log_max dt in
    exists d dist mu_var r_var,
      fit_mme X ax weights None dt = Ok d /\
      fit X ax weights true dt = Ok (Optimizable dist mu_var r_var) /\
      (forall i j,
         at_ r_var i j = clip (ln (at_ (nb_r d) i j)) (ln 1) (hi / 8) /\
         at_ mu_var i j = clip (ln (at_ (nb_mean d) i j)) (ln 1) (hi / 8) /\
         0 <= at_ r_var i j <= hi / 8 /\
         0 <= at_ mu_var i j <= hi / 8) /\
      (forall vars, exists d',
         dist vars = Ok d' /\
         nb_r d' = tf_exp (exp_argument dt (log_r vars)) /\
         nb_mean d' = tf_exp (exp_argument dt (log_mu vars)) /\
         forall i j,
           at_ (exp_argument dt (log_r vars)) i j
           = clip (at_ (log_r vars) i j) lo hi /\
           at_ (exp_argument dt (log_mu vars)) i j
           = clip (at_ (log_mu vars) i j) lo hi /\
           lo <= at_ (exp_argument dt (log_r vars)) i j <= hi /\
           lo <= at_ (exp_argument dt (log_mu vars)) i j <= hi) /\
      (exists d0,
         dist (Variables mu_var r_var) = Ok d0 /\
         forall i j,
           at_ (exp_argument dt r_var) i j = at_ r_var i j /\
           at_ (exp_argument dt mu_var) i j = at_ mu_var i j /\
           at_ (nb_r d0) i j
           = Rmax (Rmin (at_ (nb_r d) i j) (exp (hi / 8))) 1 /\
           at_ (nb_mean d0) i j
           = Rmax (Rmin (at_ (nb_mean d) i j) (exp (hi / 8))) 1).
Proof.
  intros X ax weights dt lo hi.
  destruct (fit_mme_default_ok X ax weights dt) as [d Hd].
  pose proof (np_log_max_pos dt) as Hhi. fold hi in Hhi.
  pose proof (np_log_tiny_le dt) as Hlo. fold lo in Hlo.
  assert (H8a : 0 <= hi / 8) by lra.
  unfold fit. rewrite Hd. cbn [bind].
  eexists d, _, _, _.
  split; [reflexivity|].
  split; [reflexivity|].
  assert (Hinit : forall t i j,
             at_ (log_init dt t) i j = clip (ln (at_ t i j)) (ln 1) (hi / 8) /\
             0 <= at_ (log_init dt t) i j <= hi / 8).
  { intros t i j.
    unfold log_init, tf_clip_by_value, tf_log, tmap; cbn [at_].
    split; [reflexivity|].
    rewrite ln_1. apply clip_bounds. exact H8a. }
  assert (Harg : forall v i j,
             at_ (exp_argument dt v) i j = clip (at_ v i j) lo hi /\
             lo <= at_ (exp_argument dt v) i j <= hi).
  { intros v i j.
    unfold exp_argument, tf_clip_by_value, tmap; cbn [at_].
    split; [reflexivity|].
    apply clip_bounds. unfold lo, hi in *. lra. }
  split; [|split].
  - intros i j.
    destruct (Hinit (nb_r d) i j) as [E1 B1].
    destruct (Hinit (nb_mean d) i j) as [E2 B2].
    repeat split; try assumption; apply B1 || apply B2.
  - intros vars.
    cbn [NegativeBinomial].
    eexists; split; [reflexivity|].
    split; [reflexivity|].
    split; [reflexivity|].
    intros i j.
    destruct (Harg (log_r vars) i j) as [A1 A2].
    destruct (Harg (log_mu vars) i j) as [A3 A4].
    split; [exact A1|].
    split; [exact A3|].
    split; assumption.
  - cbn [NegativeBinomial].
    eexists; split; [reflexivity|].
    intros i j.
    cbn [nb_r total_count nb_mean __mean log_r log_mu].
    destruct (Hinit (nb_r d) i j) as [E1 B1].
    destruct (Hinit (nb_mean d) i j) as [E2 B2].
    destruct (Harg (log_init dt (nb_r d)) i j) as [A1 _].
    destruct (Harg (log_init dt (nb_mean d)) i j) as [A2 _].
    rewrite clip_inside in A1 by lra.
    rewrite clip_inside in A2 by lra.
    split; [exact A1|].
    split; [exact A2|].
    unfold exp_clipped, tf_exp, tmap; cbn [at_].
    rewrite A1, A2, E1, E2.
    split; apply exp_clip_ln; exact H8a.
Qed.

Lemma ln_half_neg : ln (1 / 2) < 0.
Proof.
  replace (1 / 2) with (/ 2) by lra.
  rewrite ln_Rinv by lra.
  pose proof ln_lt_2.
  lra.
Qed.

Lemma ln_half_above : -1 < ln (1 / 2).
Proof.
  replace (1 / 2) with (/ 2) by lra.
  rewrite ln_Rinv by lra.
  assert (H : ln 2 < 1).
  { rewrite <- (ln_exp 1).
    apply ln_increasing; [lra|].
    pose proof (exp_ineq1 1). lra. }
  lra.
Qed.

(** C9 fails as stated: for the counts 0, 0, 0, 4 the moment estimate of
    [r] is 1/2, and clipping [log (1/2)] to
    [[log smallest-positive, log max / 8]] would leave it unchanged; the
    variable [log_r] returned is 0 instead, and the distribution read from
    the returned variables has [r = 1], not 1/2.  A value above
    [log max / 8] assigned to the variable is not clipped to it either: the
    value [log max] reaches [exp] as it is. *)
Lemma fit_optimizable_clip_counterexample :
  exists d dist mu_var r_var d0 d1,
    fit_mme X_0004 Axis0 None None float32 = Ok d /\
    fit X_0004 Axis0 None true float32 = Ok (Optimizable dist mu_var r_var) /\
    at_ (nb_r d) 0 0 = 1 / 2 /\
    clip (ln (at_ (nb_r d) 0 0)) (np_log_tiny float32)
         (np_log_max float32 / 8) = ln (1 / 2) /\
    at_ r_var 0 0 = 0 /\
    at_ r_var 0 0
    <> clip (ln (at_ (nb_r d) 0 0)) (np_log_tiny float32)
            (np_log_max float32 / 8) /\
    dist (Variables mu_var r_var) = Ok d0 /\
    at_ (nb_r d0) 0 0 = 1 /\
    at_ (nb_r d0) 0 0 <> at_ (nb_r d) 0 0 /\
    dist (Variables mu_var (tf_fill (1%nat, 1%nat) (np_log_max float32))) = Ok d1 /\
    nb_r d1
    = tf_exp (exp_argument float32 (tf_fill (1%nat, 1%nat) (np_log_max float32))) /\
    at_ (exp_argument float32 (tf_fill (1%nat, 1%nat) (np_log_max float32))) 0 0
    = np_log_max float32 /\
    np_log_max float32 / 8 < np_log_max float32.
Proof.
  pose proof (np_log_max_pos float32) as Hhi.
  pose proof (np_log_tiny_le float32) as Hlo.
  pose proof ln_half_neg as Hhalf.
  pose proof ln_half_above as Hhalf'.
  assert (Hr : forall d, fit_mme X_0004 Axis0 None None float32 = Ok d ->
                         at_ (nb_r d) 0 0 = 1 / 2).
  { intros d Hd.
    unfold fit_mme in Hd; cbn [mme_replace tf_where_value] in Hd; unfold tf_where in Hd.
    rewrite same_shape_true in Hd by reflexivity.
    cbn [bind NegativeBinomial] in Hd.
    injection Hd as <-.
    cbn [nb_r total_count at_].
    rewrite tf_less_true.
    - unfold tf_div, tf_square, tf_sub, tmap2, tmap, bat.
      cbn [at_ rows cols].
      change (rows (mme_mean X_0004 Axis0 None)) with 1%nat.
      change (cols (mme_mean X_0004 Axis0 None)) with 1%nat.
      change (rows (mme_variance X_0004 Axis0 None)) with 1%nat.
      change (cols (mme_variance X_0004 Axis0 None)) with 1%nat.
      cbn [bidx Nat.eqb].
      lra.
    - cbn [rows tmap]. lia.
    - cbn [cols tmap]. lia.
    - cbn [at_ tmap]. lra. }
  destruct (fit_mme_default_ok X_0004 Axis0 None float32) as [d Hd].
  pose proof (Hr d Hd) as Hrd.
  unfold fit. rewrite Hd. cbn [bind].
  eexists d, _, _, _, _, _.
  split; [reflexivity|].
  split; [reflexivity|].
  split; [exact Hrd|].
  assert (Hclaim : clip (ln (at_ (nb_r d) 0 0)) (np_log_tiny float32)
                        (np_log_max float32 / 8) = ln (1 / 2)).
  { rewrite Hrd. apply clip_inside; lra. }
  assert (Hvar : at_ (log_init float32 (nb_r d)) 0 0 = 0).
  { unfold log_init, tf_clip_by_value, tf_log, tmap; cbn [at_].
    rewrite Hrd, ln_1.
    apply clip_below; lra. }
  split; [exact Hclaim|].
  split; [exact Hvar|].
  split; [rewrite Hclaim, Hvar; lra|].
  cbn [NegativeBinomial].
  split; [reflexivity|].
  assert (Hd0 : at_ (exp_clipped float32 (log_init float32 (nb_r d))) 0 0 = 1).
  { unfold exp_clipped, exp_argument, tf_exp, tf_clip_by_value, tmap; cbn [at_].
    rewrite Hvar.
    rewrite clip_inside by lra.
    apply exp_0. }
  split; [exact Hd0|].
  split.
  { change (at_ (exp_clipped float32 (log_init float32 (nb_r d))) 0 0
            <> at_ (nb_r d) 0 0).
    rewrite Hd0, Hrd; lra. }
  split; [reflexivity|].
  split; [reflexivity|].
  split.
  { unfold exp_argument, tf_clip_by_value, tf_fill, tmap; cbn [at_].
    apply clip_inside; lra. }
  lra.
Qed.

(** *** The constructor of NegativeBinomial: accepted arguments *)

(** X1. The constructor returns exactly when [p] is not passed and either
    [r] or [total_count] comes with one of [probs], [logits], [mean], or
    neither of them is passed and [variance] and [mean] come without [probs]
    and [logits]. *)
Theorem NegativeBinomial_accepts :
  forall (tc r variance p probs logits mean : option tensor),
    is_ok (NegativeBinomial tc r variance p probs logits mean)
    = negb (given p)
      && ((given tc || given r) && (given probs || given logits || given mean)
          || negb (given tc || given r) && given variance
             && negb (given probs || given logits) && given mean).
Proof.
  intros [tc|] [r|] [variance|] [p|] [probs|] [logits|] [mean|]; reflexivity.
Qed.

(** X2. Without [r] and [total_count], a call that passes [variance]
    together with [probs] or [logits] raises [UnboundLocalError]: that path
    never binds [log_mean]. *)
Theorem NegativeBinomial_variance_logits_raises :
  forall (variance : tensor) (probs logits mean : option tensor),
    given probs || given logits = true ->
    NegativeBinomial None None (Some variance) None probs logits mean
    = Err (UnboundLocalError "log_mean").
Proof.
  intros variance [probs|] [logits|] mean H; try reflexivity; discriminate H.
Qed.

Lemma NegativeBinomial_variance_logits_raises_witness :
  NegativeBinomial None None (Some (scalar_tensor 3)) None None
                   (Some (scalar_tensor 0)) None
  = Err (UnboundLocalError "log_mean").
Proof.
  apply (NegativeBinomial_variance_logits_raises (scalar_tensor 3) None
           (Some (scalar_tensor 0)) None).
  reflexivity.
Defined.

(** *** The parametrisations agree *)

Lemma exp_ln_sub (a b : R) : 0 < a -> 0 < b -> exp (ln a - ln b) = a / b.
Proof.
  intros Ha Hb.
  unfold Rminus. rewrite exp_plus, exp_Ropp, !exp_ln by assumption.
  reflexivity.
Qed.

(** X3. A distribution built from [r] and [mean] of one shape: at every
    entry where both are positive the two cached log-probabilities are
    complementary, the parent's mean [total_count * exp logits] is the mean
    passed, and the cached logarithms invert to [r] and the mean. *)
Theorem NegativeBinomial_r_mean_consistent :
  forall (r mu : tensor) (variance : option tensor) (i j : nat),
    shape r = shape mu ->
    (i < rows r)%nat -> (j < cols r)%nat ->
    0 < at_ r i j -> 0 < at_ mu i j ->
    exists d log_mean log_r,
      NegativeBinomial None (Some r) variance None None None (Some mu) = Ok d /\
      _log_mean d = Some log_mean /\ _log_r d = Some log_r /\
      exp (at_ (_log_p d) i j) + exp (at_ (_log_1p d) i j) = 1 /\
      at_ (total_count d) i j * exp (at_ (nb_logits d) i j) = at_ mu i j /\
      exp (at_ log_mean i j) = at_ mu i j /\
      exp (at_ log_r i j) = at_ r i j.
Proof.
  intros r mu variance i j Hshape Hi Hj Hr Hmu.
  unfold shape in Hshape. injection Hshape as Hrows Hcols.
  cbn [NegativeBinomial].
  eexists _, _, _.
  split; [reflexivity|].
  split; [reflexivity|].
  split; [reflexivity|].
  cbn [_log_p _log_1p total_count nb_logits].
  unfold tf_sub, tf_log, tf_add, one_minus_exp, tmap2, tmap, bat.
  cbn [at_ rows cols].
  rewrite <- !Hrows, <- !Hcols.
  rewrite !bidx_in_range by assumption.
  set (a := at_ r i j) in *.
  set (m := at_ mu i j) in *.
  assert (Ham : 0 < a + m) by lra.
  rewrite (exp_ln_sub m (a + m) Hmu Ham), (exp_ln_sub a (a + m) Hr Ham).
  assert (E1 : 1 - m / (a + m) = a / (a + m)) by (field; lra).
  rewrite E1.
  assert (Hq : 0 < a / (a + m)) by (apply Rdiv_lt_0_compat; assumption).
  assert (Hp : 0 < m / (a + m)) by (apply Rdiv_lt_0_compat; assumption).
  assert (E2 : exp (ln m - ln (a + m) - ln (a / (a + m))) = m / a).
  { unfold Rminus at 1. rewrite exp_plus, exp_Ropp.
    rewrite (exp_ln_sub m (a + m) Hmu Ham), exp_ln by exact Hq.
    field; lra. }
  rewrite E2, !exp_ln by assumption.
  repeat split; try reflexivity; field; lra.
Qed.

Lemma NegativeBinomial_r_mean_consistent_witness :
  exists d log_mean log_r,
    NegativeBinomial None (Some (scalar_tensor 2)) None None None None
                     (Some (scalar_tensor 3)) = Ok d /\
    _log_mean d = Some log_mean /\ _log_r d = Some log_r /\
    exp (at_ (_log_p d) 0 0) + exp (at_ (_log_1p d) 0 0) = 1 /\
    at_ (total_count d) 0 0 * exp (at_ (nb_logits d) 0 0)
    = at_ (scalar_tensor 3) 0 0 /\
    exp (at_ log_mean 0 0) = at_ (scalar_tensor 3) 0 0 /\
    exp (at_ log_r 0 0) = at_ (scalar_tensor 2) 0 0.
Proof.
  apply (NegativeBinomial_r_mean_consistent (scalar_tensor 2) (scalar_tensor 3)
           None 0 0).
  - reflexivity.
  - simpl; lia.
  - simpl; lia.
  - simpl; lra.
  - simpl; lra.
Defined.

(** X4. A distribution built from [variance] and [mean] of one shape: at
    every entry with [0 < mean < variance] the derived [r] is positive, the
    overdispersion identity [mean + mean^2 / r = variance] holds, the cached
    log-probabilities are complementary and the parent's mean
    [total_count * exp logits] is the mean passed. *)
Theorem NegativeBinomial_variance_mean_consistent :
  forall (var mu : tensor) (i j : nat),
    shape var = shape mu ->
    (i < rows mu)%nat -> (j < cols mu)%nat ->
    0 < at_ mu i j -> at_ mu i j < at_ var i j ->
    exists d,
      NegativeBinomial None None (Some var) None None None (Some mu) = Ok d /\
      0 < at_ (nb_r d) i j /\
      at_ mu i j + at_ mu i j * at_ mu i j / at_ (nb_r d) i j = at_ var i j /\
      exp (at_ (_log_p d) i j) + exp (at_ (_log_1p d) i j) = 1 /\
      at_ (total_count d) i j * exp (at_ (nb_logits d) i j) = at_ mu i j.
Proof.
  intros var mu i j Hshape Hi Hj Hmu Hvar.
  unfold shape in Hshape. injection Hshape as Hrows Hcols.
  cbn [NegativeBinomial].
  eexists. split; [reflexivity|].
  cbn [nb_r _log_p _log_1p total_count nb_logits].
  unfold tf_sub, tf_log, tf_mul, tf_div, one_minus_exp, tmap2, tmap, bat.
  cbn [at_ rows cols].
  rewrite !Hrows, !Hcols.
  rewrite !bidx_in_range by assumption.
  set (v := at_ var i j) in *.
  set (m := at_ mu i j) in *.
  assert (Hv : 0 < v) by lra.
  assert (Hd : 0 < v - m) by lra.
  rewrite (exp_ln_sub (v - m) v Hd Hv), (exp_ln_sub m v Hmu Hv).
  assert (E1 : 1 - (v - m) / v = m / v) by (field; lra).
  rewrite E1.
  assert (Hq : 0 < m / v) by (apply Rdiv_lt_0_compat; assumption).
  assert (E2 : exp (ln (v - m) - ln v - ln (m / v)) = (v - m) / m).
  { unfold Rminus at 1. rewrite exp_plus, exp_Ropp.
    rewrite (exp_ln_sub (v - m) v Hd Hv), exp_ln by exact Hq.
    field; lra. }
  rewrite E2.
  assert (Hr : 0 < m * m / (v - m)).
  { apply Rdiv_lt_0_compat; [nra | exact Hd]. }
  repeat split; try exact Hr; field; lra.
Qed.

Lemma NegativeBinomial_variance_mean_consistent_witness :
  exists d,
    NegativeBinomial None None (Some (scalar_tensor 3)) None None None
                     (Some (scalar_tensor 1)) = Ok d /\
    0 < at_ (nb_r d) 0 0 /\
    at_ (scalar_tensor 1) 0 0
    + at_ (scalar_tensor 1) 0 0 * at_ (scalar_tensor 1) 0 0 / at_ (nb_r d) 0 0
    = at_ (scalar_tensor 3) 0 0 /\
    exp (at_ (_log_p d) 0 0) + exp (at_ (_log_1p d) 0 0) = 1 /\
    at_ (total_count d) 0 0 * exp (at_ (nb_logits d) 0 0)
    = at_ (scalar_tensor 1) 0 0.
Proof.
  apply (NegativeBinomial_variance_mean_consistent (scalar_tensor 3)
           (scalar_tensor 1) 0 0).
  - reflexivity.
  - simpl; lia.
  - simpl; lia.
  - simpl; lra.
  - simpl; lra.
Defined.

Lemma log_sigmoid_alt (x : R) : - ln (1 + exp (- x)) = x - ln (1 + exp x).
Proof.
  pose proof (exp_pos x) as Hx.
  pose proof (exp_pos (- x)) as Hnx.
  assert (E : 1 + exp x = (1 + exp (- x)) * exp x).
  { rewrite exp_Ropp. field. lra. }
  rewrite E, ln_mult, ln_exp by lra.
  lra.
Qed.

(** X5. A distribution built from [r] and [logits] caches the same tensor
    twice: at every entry of the logits its [log_1p] equals its [log_p],
    both being [log (sigmoid logits)]; no logarithm of the mean or of [r] is
    cached. *)
Theorem NegativeBinomial_logits_log_1p :
  forall (r lg : tensor) (variance mean : option tensor) (i j : nat),
    (i < rows lg)%nat -> (j < cols lg)%nat ->
    exists d,
      NegativeBinomial None (Some r) variance None None (Some lg) mean = Ok d /\
      at_ (_log_1p d) i j = at_ (_log_p d) i j /\
      at_ (_log_p d) i j = - ln (1 + exp (- at_ lg i j)) /\
      _log_mean d = None /\ _log_r d = None.
Proof.
  intros r lg variance mean i j Hi Hj.
  cbn [NegativeBinomial].
  eexists. split; [reflexivity|].
  cbn [_log_p _log_1p _log_mean _log_r].
  unfold tf_sub, tf_log_sigmoid, log_1_plus_exp, tmap2, tmap, bat.
  cbn [at_ rows cols].
  rewrite !bidx_in_range by assumption.
  repeat split.
  symmetry. apply log_sigmoid_alt.
Qed.

Lemma NegativeBinomial_logits_log_1p_witness :
  exists d,
    NegativeBinomial None (Some (scalar_tensor 2)) None None None
                     (Some (scalar_tensor 1)) None = Ok d /\
    at_ (_log_1p d) 0 0 = at_ (_log_p d) 0 0 /\
    at_ (_log_p d) 0 0 = - ln (1 + exp (- at_ (scalar_tensor 1) 0 0)) /\
    _log_mean d = None /\ _log_r d = None.
Proof.
  apply (NegativeBinomial_logits_log_1p (scalar_tensor 2) (scalar_tensor 1)
           None None 0 0); simpl; lia.
Defined.

(** *** The moment estimates of counts *)

Lemma rsum_ext (n : nat) (f g : nat -> R) :
  (forall k, (k < n)%nat -> f k = g k) -> rsum n f = rsum n g.
Proof.
  induction n as [|n IH]; intros H; simpl; [reflexivity|].
  rewrite IH by (intros k Hk; apply H; lia).
  rewrite (H n) by lia.
  reflexivity.
Qed.

Lemma rsum_nonneg (n : nat) (f : nat -> R) :
  (forall k, (k < n)%nat -> 0 <= f k) -> 0 <= rsum n f.
Proof.
  induction n as [|n IH]; intros H; simpl; [lra|].
  pose proof (IH (fun k Hk => H k (Nat.lt_lt_succ_r _ _ Hk))).
  pose proof (H n (Nat.lt_succ_diag_r n)).
  lra.
Qed.

Lemma rsum_zero_inv (n : nat) (f : nat -> R) :
  (forall k, (k < n)%nat -> 0 <= f k) -> rsum n f = 0 ->
  forall k, (k < n)%nat -> f k = 0.
Proof.
  induction n as [|n IH]; intros H Hs k Hk; [lia|].
  simpl in Hs.
  pose proof (rsum_nonneg n f (fun k Hk => H k (Nat.lt_lt_succ_r _ _ Hk))) as Hn.
  pose proof (H n (Nat.lt_succ_diag_r n)) as Hl.
  destruct (Nat.eq_dec k n) as [->|Hne]; [lra|].
  apply IH; [intros k' Hk'; apply H; lia | lra | lia].
Qed.

Lemma rsum_const (n : nat) (c : R) : rsum n (fun _ => c) = INR n * c.
Proof.
  induction n as [|n IH]; [simpl; lra|].
  cbn [rsum]. rewrite IH, S_INR. lra.
Qed.

Lemma reduced_index (X : tensor) (ax : axis) (i j : nat) :
  (i < fst (reduced_shape X ax))%nat -> (j < snd (reduced_shape X ax))%nat ->
  forall k, (k < reduced_size X ax)%nat ->
    match ax with
    | Axis0 => (k < rows X)%nat /\ (j < cols X)%nat
    | Axis1 => (i < rows X)%nat /\ (k < cols X)%nat
    end.
Proof.
  destruct ax; cbn [reduced_shape reduced_size fst snd]; intros; lia.
Qed.

Lemma mme_mean_entry (X : tensor) (ax : axis) (i j : nat) :
  at_ (mme_mean X ax None) i j
  = rsum (reduced_size X ax) (line X ax i j) / INR (reduced_size X ax).
Proof. destruct ax; reflexivity. Qed.

Lemma mme_variance_entry (X : tensor) (ax : axis) (i j : nat) :
  (i < fst (reduced_shape X ax))%nat -> (j < snd (reduced_shape X ax))%nat ->
  at_ (mme_variance X ax None) i j
  = rsum (reduced_size X ax)
         (fun k => (line X ax i j k - at_ (mme_mean X ax None) i j)
                   * (line X ax i j k - at_ (mme_mean X ax None) i j))
    / INR (reduced_size X ax).
Proof.
  intros Hi Hj.
  destruct ax; cbn [reduced_shape reduced_size fst snd] in *.
  - unfold mme_variance, reduce_weighted_mean, tmap, reduce_sum.
    cbn [at_ rows cols reduced_size tf_square tf_sub tmap tmap2].
    f_equal. apply rsum_ext. intros k Hk.
    unfold bat, line.
    change (rows (mme_mean X Axis0 None)) with 1%nat.
    change (cols (mme_mean X Axis0 None)) with (cols X).
    rewrite (bidx_in_range (cols X) j) by exact Hj.
    cbn [bidx Nat.eqb].
    reflexivity.
  - unfold mme_variance, reduce_weighted_mean, tmap, reduce_sum.
    cbn [at_ rows cols reduced_size tf_square tf_sub tmap tmap2].
    f_equal. apply rsum_ext. intros k Hk.
    unfold bat, line.
    change (rows (mme_mean X Axis1 None)) with (rows X).
    change (cols (mme_mean X Axis1 None)) with 1%nat.
    rewrite (bidx_in_range (rows X) i) by exact Hi.
    cbn [bidx Nat.eqb].
    reflexivity.
Qed.

(** The estimate of [r] at an entry of the reduced shape, when the caller
    passes no replacement values. *)
Lemma fit_mme_default_entry (X : tensor) (ax : axis) (weights : option tensor)
    (dt : dtype) :
  exists d,
    fit_mme X ax weights None dt = Ok d /\
    forall i j,
      (i < fst (reduced_shape X ax))%nat -> (j < snd (reduced_shape X ax))%nat ->
      at_ (nb_r d) i j
      = if Rlt_dec (at_ (mme_mean X ax weights) i j)
                   (at_ (mme_variance X ax weights) i j)
        then at_ (mme_mean X ax weights) i j * at_ (mme_mean X ax weights) i j
             / (at_ (mme_variance X ax weights) i j
                - at_ (mme_mean X ax weights) i j)
        else dtype_max dt.
Proof.
  pose proof (shape_mme_mean X ax weights) as Hm.
  pose proof (shape_mme_variance X ax weights) as Hv.
  unfold fit_mme; cbn [mme_replace tf_where_value]; unfold tf_where.
  rewrite same_shape_true
    by (unfold mme_replace, tf_fill, shape in *;
        cbn [rows cols fst snd tf_div tmap2 tf_square tmap]; congruence).
  cbn [bind NegativeBinomial].
  eexists; split; [reflexivity|].
  intros i j Hi Hj.
  unfold shape in Hm, Hv.
  assert (Hrm : rows (mme_mean X ax weights) = fst (reduced_shape X ax))
    by (rewrite <- Hm; reflexivity).
  assert (Hcm : cols (mme_mean X ax weights) = snd (reduced_shape X ax))
    by (rewrite <- Hm; reflexivity).
  assert (Hrv : rows (mme_variance X ax weights) = fst (reduced_shape X ax))
    by (rewrite <- Hv; reflexivity).
  assert (Hcv : cols (mme_variance X ax weights) = snd (reduced_shape X ax))
    by (rewrite <- Hv; reflexivity).
  cbn [nb_r total_count at_].
  unfold tf_less, tf_div, tf_square, tf_sub, tmap2, tmap.
  cbn [at_ rows cols].
  assert (Bv : bat (mme_variance X ax weights) i j
               = at_ (mme_variance X ax weights) i j)
    by (apply bat_in_range; [rewrite Hrv | rewrite Hcv]; assumption).
  assert (Bm : bat (mme_mean X ax weights) i j = at_ (mme_mean X ax weights) i j)
    by (apply bat_in_range; [rewrite Hrm | rewrite Hcm]; assumption).
  rewrite Bv.
  unfold bat at 1; cbn [at_ rows cols].
  rewrite !bidx_in_range by (rewrite ?Hrv, ?Hcv; assumption).
  rewrite Bm.
  destruct (Rlt_dec _ _); reflexivity.
Qed.

Lemma div_INR_zero (n : nat) : 0 / INR n = 0.
Proof. unfold Rdiv. apply Rmult_0_l. Qed.









(** X6. For non-negative counts, without weights and without replacement
    values, every entry of the estimated [r] is strictly positive: a feature
    with mean 0 has variance 0 and takes the sentinel. *)
Theorem fit_mme_r_positive :
  forall (X : tensor) (ax : axis) (dt : dtype),
    (forall i j, (i < rows X)%nat -> (j < cols X)%nat -> 0 <= at_ X i j) ->
    exists d,
      fit_mme X ax None None dt = Ok d /\
      forall i j,
        (i < fst (reduced_shape X ax))%nat ->
        (j < snd (reduced_shape X ax))%nat ->
        0 < at_ (nb_r d) i j.
Proof.
  intros X ax dt Hpos.
  destruct (fit_mme_default_entry X ax None dt) as (d & Hd & Hentry).
  exists d. split; [exact Hd|].
  intros i j Hi Hj.
  rewrite (Hentry i j Hi Hj).
  destruct (Rlt_dec _ _) as [Hlt|_];
    [|pose proof (dtype_max_ge_1 dt); lra].
  rewrite (mme_variance_entry X ax i j Hi Hj) in Hlt |- *.
  set (m := at_ (mme_mean X ax None) i j) in *.
  set (n := reduced_size X ax) in *.
  set (v := rsum n _ / INR n) in *.
  assert (Hline : forall k, (k < n)%nat -> 0 <= line X ax i j k).
  { intros k Hk.
    pose proof (reduced_index X ax i j Hi Hj k Hk) as Hidx.
    unfold line. destruct ax; apply Hpos; apply Hidx. }
  assert (Hm : m = rsum n (line X ax i j) / INR n) by apply mme_mean_entry.
  destruct n as [|n'] eqn:En.
  - exfalso. unfold v in Hlt. cbn [rsum] in Hlt, Hm.
    rewrite div_INR_zero in Hlt, Hm. lra.
  - assert (Hn : 0 < INR (S n')) by (apply lt_0_INR; lia).
    pose proof (rsum_nonneg (S n') _ Hline) as HS.
    assert (Hmpos : 0 < m).
    { destruct HS as [HS|HS].
      - rewrite Hm. apply Rdiv_lt_0_compat; assumption.
      - exfalso.
        pose proof (rsum_zero_inv (S n') _ Hline (eq_sym HS)) as Hz.
        assert (Hm0 : m = 0) by (rewrite Hm, <- HS; apply div_INR_zero).
        assert (Hv0 : v = 0).
        { unfold v.
          rewrite (rsum_ext (S n') _ (fun _ => 0)).
          - rewrite rsum_const. unfold Rdiv. rewrite Rmult_0_r. apply Rmult_0_l.
          - intros k Hk. rewrite (Hz k Hk), Hm0. lra. }
        lra. }
    apply Rdiv_lt_0_compat; nra.
Qed.

Lemma fit_mme_r_positive_witness :
  exists d,
    fit_mme X_counts Axis0 None None float32 = Ok d /\
    forall i j,
      (i < fst (reduced_shape X_counts Axis0))%nat ->
      (j < snd (reduced_shape X_counts Axis0))%nat ->
      0 < at_ (nb_r d) i j.
Proof.
  apply (fit_mme_r_positive X_counts Axis0 float32).
  intros i j Hi Hj.
  unfold X_counts; cbn [at_].
  destruct j as [|j]; [destruct i as [|[|i]]|]; lra.
Defined.

(** X7. A feature with at least one observation whose observations all
    equal one non-negative number [c] has mean [c] and variance 0, and takes
    the sentinel, the largest number of the data type. *)
Theorem fit_mme_constant_feature :
  forall (X : tensor) (ax : axis) (dt : dtype) (i j : nat) (c : R),
    (i < fst (reduced_shape X ax))%nat ->
    (j < snd (reduced_shape X ax))%nat ->
    (0 < reduced_size X ax)%nat ->
    (forall k, (k < reduced_size X ax)%nat -> line X ax i j k = c) ->
    0 <= c ->
    exists d,
      fit_mme X ax None None dt = Ok d /\
      at_ (mme_mean X ax None) i j = c /\
      at_ (mme_variance X ax None) i j = 0 /\
      at_ (nb_r d) i j = dtype_max dt.
Proof.
  intros X ax dt i j c Hi Hj Hobs Hconst Hc.
  destruct (fit_mme_default_entry X ax None dt) as (d & Hd & Hentry).
  exists d. split; [exact Hd|].
  rewrite (Hentry i j Hi Hj).
  rewrite (mme_variance_entry X ax i j Hi Hj).
  assert (Hn : 0 < INR (reduced_size X ax)) by (apply lt_0_INR; exact Hobs).
  assert (Hm : at_ (mme_mean X ax None) i j = c).
  { rewrite mme_mean_entry.
    rewrite (rsum_ext _ _ (fun _ => c)) by exact Hconst.
    rewrite rsum_const. field. lra. }
  rewrite Hm.
  assert (Hv : rsum (reduced_size X ax)
                 (fun k => (line X ax i j k - c) * (line X ax i j k - c))
               / INR (reduced_size X ax) = 0).
  { rewrite (rsum_ext _ _ (fun _ => 0)).
    - rewrite rsum_const. unfold Rdiv. rewrite Rmult_0_r. apply Rmult_0_l.
    - intros k Hk. rewrite (Hconst k Hk). lra. }
  rewrite Hv.
  split; [reflexivity|].
  split; [reflexivity|].
  destruct (Rlt_dec c 0); [lra | reflexivity].
Qed.

Lemma fit_mme_constant_feature_witness :
  exists d,
    fit_mme X_counts Axis0 None None float32 = Ok d /\
    at_ (mme_mean X_counts Axis0 None) 0 1 = 2 /\
    at_ (mme_variance X_counts Axis0 None) 0 1 = 0 /\
    at_ (nb_r d) 0 1 = dtype_max float32.
Proof.
  apply (fit_mme_constant_feature X_counts Axis0 float32 0 1 2).
  - simpl; lia.
  - simpl; lia.
  - simpl; lia.
  - intros k Hk. reflexivity.
  - lra.
Defined.

End NBUtilFacts.

(** ** base_glm_all/hessians.py *)

Module HessiansFacts.

Import Hessians.
Local Open Scope Q_scope.

Lemma bind_ok_inv {A B : Type} (x : result A) (k : A -> result B) (b : B) :
  bind x k = Ok b -> exists a, x = Ok a /\ k a = Ok b.
Proof.
  destruct x as [a|e]; cbn [bind]; intros H.
  - exists a; split; [reflexivity | exact H].
  - discriminate H.
Qed.

(** The fused contraction: shape and entries of a block. *)
Lemma Hblock_spec (W XH XH' : matrix) (T : tensor3) :
  Hblock W XH XH' = Ok T ->
  dims T = (m_cols W, m_cols XH, m_cols XH') /\
  forall f c d,
    t_at T f c d
    = qsum (m_rows W) (fun o => m_at W o f * m_at XH o c * m_at XH' o d).
Proof.
  unfold Hblock, einsum_of_oc, einsum_ofc_od.
  destruct (m_rows W =? m_rows XH)%nat; cbn [bind]; [|discriminate].
  cbn [d0 d1 d2 t_at].
  destruct (m_rows W =? m_rows XH')%nat; [|discriminate].
  intros H; injection H as <-.
  split; reflexivity.
Qed.

(** A block is computed as soon as the weights and the two design matrices
    have one row per observation. *)
Lemma Hblock_ok (W XH XH' : matrix) :
  m_rows W = m_rows XH -> m_rows W = m_rows XH' ->
  exists T, Hblock W XH XH' = Ok T.
Proof.
  intros E1 E2.
  unfold Hblock, einsum_of_oc, einsum_ofc_od.
  rewrite <- E1, Nat.eqb_refl; cbn [bind d0].
  rewrite <- E2, Nat.eqb_refl.
  eexists; reflexivity.
Qed.

Lemma blocks_dims (self : HessianGLMALL) (m : model) (aa bb ab : tensor3) :
  _aa_byobs_batched self m = Ok aa ->
  _bb_byobs_batched self m = Ok bb ->
  _ab_byobs_batched self m = Ok ab ->
  d2 aa = d1 aa /\ d1 ab = d1 aa /\ d2 ab = d2 bb /\ d1 bb = d2 bb.
Proof.
  unfold _aa_byobs_batched, _bb_byobs_batched, _ab_byobs_batched.
  intros Haa Hbb Hab.
  apply bind_ok_inv in Haa as (XHa & Ea & Haa).
  apply bind_ok_inv in Hbb as (XHb & Eb & Hbb).
  apply bind_ok_inv in Hab as (XHa' & Ea' & Hab).
  apply bind_ok_inv in Hab as (XHb' & Eb' & Hab).
  rewrite Ea in Ea'; injection Ea' as <-.
  rewrite Eb in Eb'; injection Eb' as <-.
  apply Hblock_spec in Haa as [Daa _].
  apply Hblock_spec in Hbb as [Dbb _].
  apply Hblock_spec in Hab as [Dab _].
  unfold dims in *.
  injection Daa as _ -> ->.
  injection Dbb as _ -> ->.
  injection Dab as _ -> ->.
  repeat split; reflexivity.
Qed.

(** C4. With both parts trained [hessian_analytic] returns, feature by
    feature, the block matrix [[aa, ab], [ab^T, bb]], whose lower left block
    is the transposed [ab] block; with only the location part trained it
    returns the [aa] block, and with only the dispersion part the [bb]
    block. *)
Theorem hessian_analytic_blocks :
  forall (self : HessianGLMALL) (m : model),
    (compute_a self = true -> compute_b self = true ->
     forall aa bb ab,
       _aa_byobs_batched self m = Ok aa ->
       _bb_byobs_batched self m = Ok bb ->
       _ab_byobs_batched self m = Ok ab ->
       d0 aa = d0 ab -> d0 ab = d0 bb ->
       exists H,
         hessian_analytic self m = Ok (H3 H) /\
         dims H = (d0 aa, (d1 aa + d1 bb)%nat, (d1 aa + d1 bb)%nat) /\
         forall f i j, t_at H f i j = block_entry aa ab bb f i j) /\
    (compute_a self = true -> compute_b self = false ->
     hessian_analytic self m
     = bind (_aa_byobs_batched self m) (fun H => Ok (H3 H))) /\
    (compute_a self = false -> compute_b self = true ->
     hessian_analytic self m
     = bind (_bb_byobs_batched self m) (fun H => Ok (H3 H))).
Proof.
  intros self m.
  split; [|split].
  - intros Ha Hb aa bb ab Haa Hbb Hab Hf1 Hf2.
    destruct (blocks_dims self m aa bb ab Haa Hbb Hab) as (E1 & E2 & E3 & E4).
    unfold hessian_analytic.
    rewrite Ha, Hb, Haa, Hbb, Hab.
    cbn [andb bind].
    clear Haa Hbb Hab.
    destruct aa as [na pa pa' faa], ab as [nab pab pab' fab], bb as [nb pb pb' fbb].
    cbn [d0 d1 d2] in *; subst.
    unfold tf_concat_axis2, tf_concat_axis1, block_entry, dims.
    cbn [tf_transpose_021 d0 d1 d2 t_at].
    rewrite !Nat.eqb_refl; cbn [andb bind d0 d1 d2 t_at].
    rewrite !Nat.eqb_refl; cbn [andb bind d0 d1 d2 t_at].
    eexists; split; [reflexivity|].
    split; [reflexivity|].
    intros f i j; cbn [t_at].
    reflexivity.
  - intros Ha Hb.
    unfold hessian_analytic.
    rewrite Ha, Hb. reflexivity.
  - intros Ha Hb.
    unfold hessian_analytic.
    rewrite Ha, Hb. reflexivity.
Qed.

(** A run of the theorem on the sample model, with both parts trained. *)
Lemma hessian_analytic_blocks_witness :
  exists aa bb ab,
    _aa_byobs_batched sample_builder sample_model = Ok aa /\
    _bb_byobs_batched sample_builder sample_model = Ok bb /\
    _ab_byobs_batched sample_builder sample_model = Ok ab /\
    exists H,
      hessian_analytic sample_builder sample_model = Ok (H3 H) /\
      dims H = (d0 aa, (d1 aa + d1 bb)%nat, (d1 aa + d1 bb)%nat) /\
      forall f i j, t_at H f i j = block_entry aa ab bb f i j.
Proof.
  eexists _, _, _.
  split; [reflexivity|].
  split; [reflexivity|].
  split; [reflexivity|].
  apply (proj1 (hessian_analytic_blocks sample_builder sample_model));
    reflexivity.
Defined.

Example hessian_analytic_sample :
  sample_rows (hessian_analytic sample_builder sample_model)
  = [[-4; 0; 1]; [0; -3; 0]; [1; 0; -3]].
Proof. vm_compute. reflexivity. Qed.

(** *** Contraction, symmetry and constraints *)

Lemma qsum_Qeq (n : nat) (f g : nat -> Q) :
  (forall o, (o < n)%nat -> f o == g o) -> qsum n f == qsum n g.
Proof.
  induction n as [|n IH]; intros H; cbn [qsum]; [reflexivity|].
  rewrite IH by (intros o Ho; apply H; lia).
  rewrite (H n) by lia.
  reflexivity.
Qed.

(** X8. The two contractions of a block fuse into one sum over the
    observations: the block is computed exactly when the weights and the two
    design matrices have the same number of rows, its shape is features x
    coefficients x coefficients, and its entry [(f, c, d)] is the sum over
    the observations [o] of [W[o, f] * XH[o, c] * XH'[o, d]]. *)
Theorem Hblock_fused_contraction :
  forall (W XH XH' : matrix),
    is_ok (Hblock W XH XH')
    = ((m_rows W =? m_rows XH) && (m_rows W =? m_rows XH'))%nat /\
    forall T,
      Hblock W XH XH' = Ok T ->
      dims T = (m_cols W, m_cols XH, m_cols XH') /\
      forall f c d,
        t_at T f c d
        = qsum (m_rows W) (fun o => m_at W o f * m_at XH o c * m_at XH' o d).
Proof.
  intros W XH XH'.
  split.
  - unfold Hblock, einsum_of_oc, einsum_ofc_od.
    destruct (m_rows W =? m_rows XH)%nat; cbn [bind d0 andb is_ok]; [|reflexivity].
    destruct (m_rows W =? m_rows XH')%nat; reflexivity.
  - intros T HT. apply Hblock_spec. exact HT.
Qed.

(** What a returned Hessian is made of when both parts are trained. *)
Lemma hessian_analytic_both_inv (self : HessianGLMALL) (m : model) (H : tensor3) :
  compute_a self = true -> compute_b self = true ->
  hessian_analytic self m = Ok (H3 H) ->
  exists aa bb ab,
    _aa_byobs_batched self m = Ok aa /\
    _bb_byobs_batched self m = Ok bb /\
    _ab_byobs_batched self m = Ok ab /\
    forall f i j, t_at H f i j = block_entry aa ab bb f i j.
Proof.
  intros Ha Hb HH.
  unfold hessian_analytic in HH.
  rewrite Ha, Hb in HH. cbn [andb] in HH.
  apply bind_ok_inv in HH as (aa & Haa & HH).
  apply bind_ok_inv in HH as (bb & Hbb & HH).
  apply bind_ok_inv in HH as (ab & Hab & HH).
  apply bind_ok_inv in HH as (top & Htop & HH).
  apply bind_ok_inv in HH as (bottom & Hbottom & HH).
  apply bind_ok_inv in HH as (H' & HH' & HH).
  injection HH as <-.
  exists aa, bb, ab.
  repeat split; try assumption.
  destruct (blocks_dims self m aa bb ab Haa Hbb Hab) as (E1 & E2 & E3 & E4).
  unfold tf_concat_axis2 in Htop, Hbottom.
  destruct (_ && _)%nat in Htop; [|discriminate].
  destruct (_ && _)%nat in Hbottom; [|discriminate].
  injection Htop as <-. injection Hbottom as <-.
  unfold tf_concat_axis1 in HH'.
  destruct (_ && _)%nat in HH'; [|discriminate].
  injection HH' as <-.
  intros f i j.
  unfold block_entry. cbn [tf_transpose_021 d0 d1 d2 t_at].
  rewrite E1, E2.
  reflexivity.
Qed.

Lemma diagonal_block_symmetric (W XH : matrix) (T : tensor3) :
  Hblock W XH XH = Ok T -> forall f c d, t_at T f c d == t_at T f d c.
Proof.
  intros HT f c d.
  apply Hblock_spec in HT as [_ HT].
  rewrite !HT.
  apply qsum_Qeq. intros o _. ring.
Qed.

(** X9. With both parts trained the returned Hessian is symmetric, feature
    by feature. *)
Theorem hessian_analytic_symmetric :
  forall (self : HessianGLMALL) (m : model) (H : tensor3),
    compute_a self = true -> compute_b self = true ->
    hessian_analytic self m = Ok (H3 H) ->
    forall f i j, t_at H f i j == t_at H f j i.
Proof.
  intros self m H Ha Hb HH f i j.
  destruct (hessian_analytic_both_inv self m H Ha Hb HH)
    as (aa & bb & ab & Haa & Hbb & _ & Hentry).
  rewrite !Hentry.
  unfold _aa_byobs_batched in Haa. unfold _bb_byobs_batched in Hbb.
  apply bind_ok_inv in Haa as (XHa & _ & Haa).
  apply bind_ok_inv in Hbb as (XHb & _ & Hbb).
  pose proof (diagonal_block_symmetric _ _ _ Haa) as Saa.
  pose proof (diagonal_block_symmetric _ _ _ Hbb) as Sbb.
  unfold block_entry.
  destruct (i <? d1 aa)%nat, (j <? d1 aa)%nat;
    try reflexivity; [apply Saa | apply Sbb].
Qed.

Lemma hessian_analytic_symmetric_witness :
  exists H,
    hessian_analytic sample_builder sample_model = Ok (H3 H) /\
    forall f i j, t_at H f i j == t_at H f j i.
Proof.
  eexists. split; [reflexivity|].
  apply (hessian_analytic_symmetric sample_builder sample_model);
    reflexivity.
Defined.

Lemma qsum_delta_out (n j : nat) (a : nat -> Q) :
  (n <= j)%nat ->
  qsum n (fun k => a k * (if (k =? j)%nat then 1 else 0)) == 0.
Proof.
  induction n as [|n IH]; intros Hj; cbn [qsum]; [reflexivity|].
  rewrite IH by lia.
  destruct (Nat.eqb_spec n j) as [E|E]; [lia|].
  ring.
Qed.

Lemma qsum_delta (n j : nat) (a : nat -> Q) :
  (j < n)%nat ->
  qsum n (fun k => a k * (if (k =? j)%nat then 1 else 0)) == a j.
Proof.
  induction n as [|n IH]; intros Hj; [lia|].
  cbn [qsum].
  destruct (Nat.eqb_spec n j) as [E|E].
  - subst. rewrite qsum_delta_out by lia. ring.
  - rewrite IH by lia. ring.
Qed.

(** X10. The identity as location constraints changes nothing: when the
    unconstrained location block is computed, so is the block with the
    identity matrix as constraints of the builder and of the model, with the
    same shape and equal entries. *)
Theorem identity_constraints_aa :
  forall (self : HessianGLMALL) (m : model) (aa : tensor3),
    let p := m_cols (design_loc m) in
    _aa_byobs_batched (without_loc_constraints self) m = Ok aa ->
    exists aa',
      _aa_byobs_batched (with_loc_constraints self (eye p))
                        (model_with_loc_constraints m (eye p)) = Ok aa' /\
      dims aa' = dims aa /\
      forall f c d, (c < p)%nat -> (d < p)%nat ->
        t_at aa' f c d == t_at aa f c d.
Proof.
  intros self m aa p Haa.
  unfold _aa_byobs_batched in Haa |- *.
  cbn [without_loc_constraints with_loc_constraints model_with_loc_constraints
       self_constraints_loc constraints_loc design_loc _weight_hessian_aa
       X mu r constrained bind] in Haa |- *.
  unfold tf_matmul. cbn [eye m_rows m_cols].
  fold p. rewrite Nat.eqb_refl. cbn [bind].
  unfold Hblock, einsum_of_oc, einsum_ofc_od in Haa |- *.
  cbn [m_rows m_cols] in *.
  destruct (m_rows _ =? m_rows (design_loc m))%nat; cbn [bind d0 d1 d2 t_at] in *;
    [|discriminate].
  destruct (m_rows _ =? m_rows (design_loc m))%nat; [|discriminate].
  injection Haa as <-.
  eexists. split; [reflexivity|].
  split; [reflexivity|].
  intros f c d Hc Hd. cbn [t_at m_at eye].
  apply qsum_Qeq. intros o _.
  rewrite (qsum_delta p c (fun k => m_at (design_loc m) o k)) by exact Hc.
  rewrite (qsum_delta p d (fun k => m_at (design_loc m) o k)) by exact Hd.
  reflexivity.
Qed.

Lemma identity_constraints_aa_witness :
  exists aa aa',
    _aa_byobs_batched (without_loc_constraints sample_builder) sample_model = Ok aa /\
    _aa_byobs_batched
      (with_loc_constraints sample_builder (eye (m_cols (design_loc sample_model))))
      (model_with_loc_constraints sample_model (eye (m_cols (design_loc sample_model))))
    = Ok aa' /\
    dims aa' = dims aa /\
    forall f c d,
      (c < m_cols (design_loc sample_model))%nat ->
      (d < m_cols (design_loc sample_model))%nat ->
      t_at aa' f c d == t_at aa f c d.
Proof.
  eexists.
  assert (Haa : _aa_byobs_batched (without_loc_constraints sample_builder)
                                  sample_model = Ok ?[aa]) by reflexivity.
  destruct (identity_constraints_aa sample_builder sample_model _ Haa)
    as (aa' & E & D & P).
  exists aa'.
  repeat split; [exact E | exact D | exact P].
Defined.

End HessiansFacts.

(** ** base/estimator.py *)

Module EstimatorFacts.

Import Estimator.
Local Open Scope string_scope.

(** *** The windowed loop *)

Lemma py_mod_ok (a : Z) (n : nat) :
  (0 < n)%nat -> py_mod a n = Ok (Z.to_nat (a mod Z.of_nat n)).
Proof.
  intros Hn.
  unfold py_mod.
  destruct (Nat.eqb_spec n 0) as [E|E]; [lia | reflexivity].
Qed.

Lemma py_mod_inv (a : Z) (n m : nat) :
  py_mod a n = Ok m -> (0 < n)%nat /\ (m < n)%nat /\ m = Z.to_nat (a mod Z.of_nat n).
Proof.
  unfold py_mod.
  destruct (Nat.eqb_spec n 0) as [E|E]; [discriminate|].
  intros H; injection H as <-.
  pose proof (Z.mod_pos_bound a (Z.of_nat n) ltac:(lia)).
  repeat split; lia.
Qed.

Lemma py_mod_zero (a : Z) (n : nat) :
  (0 < n)%nat ->
  (Z.to_nat (a mod Z.of_nat n) =? 0)%nat = true <-> (a mod Z.of_nat n = 0)%Z.
Proof.
  intros Hn.
  pose proof (Z.mod_pos_bound a (Z.of_nat n) ltac:(lia)).
  rewrite Nat.eqb_eq.
  lia.
Qed.

(** C2 fails as stated: at a window boundary with a full previous window a
    p-value of 1/100, below the threshold 5/100, does not stop the loop, and
    a p-value of 1/2, above the threshold, stops it. *)
Lemma should_stop_t_test_counterexample :
  let previous_loss_hist := [Fin 3; Fin 2] in
  let loss_hist := [Fin 1; Fin 1] in
  let threshold := Fin (5 # 100) in
  (flt (constant_test (Fin (1 # 100)) previous_loss_hist loss_hist) threshold = true /\
   should_stop (constant_test (Fin (1 # 100))) "t_test" threshold
               previous_loss_hist loss_hist 4 = Ok (Some false)) /\
  (flt (constant_test (Fin (1 # 2)) previous_loss_hist loss_hist) threshold = false /\
   should_stop (constant_test (Fin (1 # 2))) "t_test" threshold
               previous_loss_hist loss_hist 4 = Ok (Some true)) /\
  _train_to_convergence (constant_test (Fin (1 # 100))) falling_run
                        "t_test" threshold 2 4
  = Running 4 [Fin (100 # 1); Fin (100 # 2)] [Fin (100 # 3); Fin (100 # 4)] /\
  _train_to_convergence (constant_test (Fin (1 # 2))) falling_run
                        "t_test" threshold 2 4
  = Stopped 4 [Fin (100 # 1); Fin (100 # 2)] [Fin (100 # 3); Fin (100 # 4)].
Proof.
  vm_compute.
  repeat split; reflexivity.
Qed.

(** C2, as the code has it.  With the criterion "t_test" [should_stop]
    returns true exactly at a window boundary (the step is a multiple of the
    window size) with a previous window free of infinite values at which the
    p-value is not below the threshold. *)
Theorem should_stop_t_test :
  forall (welch_t_test : list fval -> list fval -> fval)
         (stopping_criteria : fval)
         (previous_loss_hist loss_hist : list fval) (step : Z),
    loss_hist <> [] ->
    exists b,
      should_stop welch_t_test "t_test" stopping_criteria
                  previous_loss_hist loss_hist step = Ok (Some b) /\
      (b = true <->
       (step mod Z.of_nat (List.length loss_hist) = 0)%Z /\
       has_inf previous_loss_hist = false /\
       flt (welch_t_test previous_loss_hist loss_hist) stopping_criteria = false).
Proof.
  intros welch thr prev cur step Hne.
  assert (Hlen : (0 < List.length cur)%nat)
    by (destruct cur; [congruence | simpl; lia]).
  unfold should_stop.
  rewrite py_mod_ok by exact Hlen.
  cbn [bind String.eqb Ascii.eqb Bool.eqb].
  pose proof (py_mod_zero step (List.length cur) Hlen) as Hz.
  destruct (Z.to_nat (step mod Z.of_nat (List.length cur)) =? 0)%nat eqn:Em;
    cbn [andb].
  - destruct (has_inf prev) eqn:Ei; cbn [negb].
    + eexists; split; [reflexivity|].
      split; [discriminate | intros (_ & H & _); discriminate].
    + eexists; split; [reflexivity|].
      destruct (flt (welch prev cur) thr); cbn [negb].
      * split; [discriminate | intros (_ & _ & H); discriminate].
      * split; [intros _; repeat split; apply Hz; reflexivity | reflexivity].
  - eexists; split; [reflexivity|].
    split; [discriminate|].
    intros (H & _).
    apply Hz in H. discriminate.
Qed.

(** A run of the theorem: a boundary of a window of two losses, with a
    p-value above the threshold. *)
Lemma should_stop_t_test_witness :
  exists b,
    should_stop (constant_test (Fin (1 # 2))) "t_test" (Fin (5 # 100))
                [Fin 3; Fin 2] [Fin 1; Fin 1] 4 = Ok (Some b) /\
    (b = true <->
     (4 mod Z.of_nat (List.length [Fin 1; Fin 1]) = 0)%Z /\
     has_inf [Fin 3; Fin 2] = false /\
     flt (constant_test (Fin (1 # 2)) [Fin 3; Fin 2] [Fin 1; Fin 1])
         (Fin (5 # 100)) = false).
Proof.
  apply (should_stop_t_test (constant_test (Fin (1 # 2))) (Fin (5 # 100))
           [Fin 3; Fin 2] [Fin 1; Fin 1] 4).
  discriminate.
Defined.

(** *** Windows and their infinite entries *)

Lemma set_nth_length {A : Type} (i : nat) (v : A) (l : list A) :
  List.length (set_nth i v l) = List.length l.
Proof.
  revert i; induction l as [|h t IH]; intros [|i]; simpl; auto.
Qed.

Lemma count_finite_le_length (l : list fval) :
  (count_finite l <= List.length l)%nat.
Proof. apply filter_length_le. Qed.

Lemma count_finite_set_nth (i : nat) (v : fval) (l : list fval) :
  (count_finite (set_nth i v l) <= S (count_finite l))%nat.
Proof.
  unfold count_finite.
  revert i; induction l as [|h t IH]; intros i.
  - destruct i; simpl; lia.
  - destruct i as [|i]; simpl.
    + destruct (negb (isinf v)), (negb (isinf h)); simpl; lia.
    + specialize (IH i).
      destruct (negb (isinf h)); simpl; lia.
Qed.

Lemma count_finite_no_inf (l : list fval) :
  has_inf l = false -> count_finite l = List.length l.
Proof.
  unfold has_inf, count_finite.
  induction l as [|h t IH]; simpl; [reflexivity|].
  intros H.
  apply orb_false_iff in H as [Hh Ht].
  rewrite Hh; simpl.
  rewrite IH by exact Ht.
  reflexivity.
Qed.

Lemma count_finite_tile_inf (n : nat) : count_finite (np_tile PInf n) = 0%nat.
Proof.
  unfold count_finite, np_tile.
  induction n; simpl; auto.
Qed.

Lemma has_inf_tile_inf (n : nat) : has_inf (np_tile PInf n) = false -> n = 0%nat.
Proof.
  destruct n; [reflexivity | discriminate].
Qed.

Lemma has_inf_set_nth (i : nat) (v : fval) (l : list fval) :
  has_inf l = false -> isinf v = false -> has_inf (set_nth i v l) = false.
Proof.
  unfold has_inf.
  revert i; induction l as [|h t IH]; intros i Hl Hv; [destruct i; reflexivity|].
  simpl in Hl. apply orb_false_iff in Hl as [Hh Ht].
  destruct i as [|i]; simpl.
  - rewrite Hv, Ht; reflexivity.
  - rewrite Hh, IH by assumption; reflexivity.
Qed.

Section WindowedLoop.

Variable welch_t_test : list fval -> list fval -> fval.
Variable session : nat -> Z * fval.
Variable convergence_criteria : string.
Variable stopping_criteria : fval.

Let stop := should_stop welch_t_test convergence_criteria stopping_criteria.
Let pass := iteration welch_t_test session convergence_criteria stopping_criteria.
Let run := loop welch_t_test session convergence_criteria stopping_criteria.

(** [should_stop] is true only when the previous window has no infinite
    entry. *)
Lemma should_stop_needs_full_previous (prev cur : list fval) (step : Z)
    (v : option bool) :
  stop prev cur step = Ok v -> truthy v = true -> has_inf prev = false.
Proof.
  unfold stop, should_stop.
  destruct (py_mod step (List.length cur)) as [m|e]; cbn [bind]; [|discriminate].
  destruct (m =? 0)%nat; cbn [andb].
  - destruct (has_inf prev); cbn [negb]; [|reflexivity].
    intros H; injection H as <-; discriminate.
  - intros H; injection H as <-; discriminate.
Qed.

(** What one pass does to the two windows. *)
Lemma iteration_inv (k : nat) (prev cur p1 c1 : list fval) (stopped : bool) :
  pass k prev cur = Ok (p1, c1, stopped) ->
  exists i,
    (p1 = cur \/ p1 = prev) /\
    c1 = set_nth i (snd (session k)) cur /\
    (stopped = true -> has_inf p1 = false).
Proof.
  unfold pass, iteration.
  destruct (session k) as [train_step global_loss]; cbn [snd].
  destruct (py_mod train_step (List.length cur)) as [m|e]; cbn [bind]; [|discriminate].
  destruct (py_mod (train_step - 1) (List.length cur)) as [i|e]; cbn [bind]; [|discriminate].
  match goal with
  | |- context [should_stop _ _ _ ?p ?c ?s] =>
      destruct (should_stop welch_t_test convergence_criteria stopping_criteria p c s)
        as [v|e] eqn:Es
  end; cbn [bind]; [|discriminate].
  intros H; injection H as <- <- <-.
  exists i.
  split; [destruct (m =? 1)%nat; auto|].
  split; [reflexivity|].
  intros Ht.
  eapply should_stop_needs_full_previous; [exact Es | exact Ht].
Qed.

Lemma window_inv_init (n : nat) :
  window_inv n 0 (np_tile PInf n) (np_tile PInf n).
Proof.
  unfold window_inv.
  split; [apply repeat_length|].
  split; [rewrite count_finite_tile_inf; lia|].
  intros H. apply has_inf_tile_inf in H. lia.
Qed.

Lemma window_inv_step (n k : nat) (prev cur p1 c1 : list fval) (stopped : bool) :
  window_inv n k prev cur ->
  pass k prev cur = Ok (p1, c1, stopped) ->
  window_inv n (S k) p1 c1.
Proof.
  intros (Hlen & Hcnt & Hprev) Hpass.
  apply iteration_inv in Hpass as (i & Hp1 & -> & _).
  unfold window_inv.
  split; [rewrite set_nth_length; exact Hlen|].
  split.
  - pose proof (count_finite_set_nth i (snd (session k)) cur). lia.
  - intros Hfin.
    destruct Hp1 as [-> | ->].
    + apply count_finite_no_inf in Hfin. lia.
    + specialize (Hprev Hfin). lia.
Qed.

Lemma loop_stops_late (n fuel k k' : nat) (prev cur p' c' : list fval) :
  window_inv n k prev cur ->
  run fuel k prev cur = Stopped k' p' c' ->
  (n <= k')%nat /\ has_inf p' = false.
Proof.
  revert k prev cur.
  induction fuel as [|fuel IH]; intros k prev cur Hinv Hrun.
  - discriminate Hrun.
  - unfold run in Hrun; cbn [loop] in Hrun.
    fold pass in Hrun.
    destruct (pass k prev cur) as [[[p1 c1] stopped]|e] eqn:Hpass; [|discriminate].
    pose proof (window_inv_step n k prev cur p1 c1 stopped Hinv Hpass) as Hinv'.
    destruct stopped.
    + injection Hrun as <- <- <-.
      apply iteration_inv in Hpass as (i & _ & _ & Hfin).
      specialize (Hfin eq_refl).
      split; [|exact Hfin].
      destruct Hinv' as (_ & _ & H). apply H. exact Hfin.
    + eapply IH; [exact Hinv' | exact Hrun].
Qed.

(** With losses that are never infinite, a previous window without infinite
    entries comes with a current window without infinite entries. *)
Lemma loop_current_finite (fuel k k' : nat) (prev cur p' c' : list fval) :
  (forall i, isinf (snd (session i)) = false) ->
  (has_inf prev = false -> has_inf cur = false) ->
  run fuel k prev cur = Stopped k' p' c' ->
  has_inf c' = false.
Proof.
  intros Hloss.
  revert k prev cur.
  induction fuel as [|fuel IH]; intros k prev cur Hinv Hrun.
  - discriminate Hrun.
  - unfold run in Hrun; cbn [loop] in Hrun.
    fold pass in Hrun.
    destruct (pass k prev cur) as [[[p1 c1] stopped]|e] eqn:Hpass; [|discriminate].
    apply iteration_inv in Hpass as (i & Hp1 & -> & Hfin).
    assert (Hinv' : has_inf p1 = false ->
                    has_inf (set_nth i (snd (session k)) cur) = false).
    { intros Hp. apply has_inf_set_nth; [|apply Hloss].
      destruct Hp1 as [-> | ->]; [exact Hp | apply Hinv; exact Hp]. }
    destruct stopped.
    + injection Hrun as <- <- <-.
      apply Hinv', Hfin. reflexivity.
    + eapply IH; [exact Hinv' | exact Hrun].
Qed.

End WindowedLoop.

(** C5. Whatever the criterion, the threshold and the losses, when the
    windowed loop stops it has made at least as many passes as the window
    is long and the previous window holds no infinite value; when no loss of
    the session is infinite the current window holds none either.  A loss
    that does not change from the first step on does not stop it earlier. *)
Theorem no_stop_before_full_window :
  forall (welch_t_test : list fval -> list fval -> fval)
         (session : nat -> Z * fval)
         (convergence_criteria : string) (stopping_criteria : fval)
         (loss_window_size fuel iterations : nat)
         (previous_loss_hist loss_hist : list fval),
    _train_to_convergence welch_t_test session convergence_criteria
                          stopping_criteria loss_window_size fuel
    = Stopped iterations previous_loss_hist loss_hist ->
    (loss_window_size <= iterations)%nat /\
    has_inf previous_loss_hist = false /\
    ((forall i, isinf (snd (session i)) = false) -> has_inf loss_hist = false).
Proof.
  intros welch session criteria thr n fuel k prev cur Hrun.
  unfold _train_to_convergence in Hrun.
  destruct (loop_stops_late welch session criteria thr n fuel 0 k _ _ prev cur
              (window_inv_init n) Hrun) as [Hk Hprev].
  split; [exact Hk|].
  split; [exact Hprev|].
  intros Hloss.
  eapply loop_current_finite; [exact Hloss | | exact Hrun].
  intros H; exact H.
Qed.

(** A run of the theorem: the loss is 1 from the first step on, the window
    has two entries, and the loop stops after four passes. *)
Lemma no_stop_before_full_window_witness :
  (2 <= 4)%nat /\
  has_inf [Fin 1; Fin 1] = false /\
  ((forall i, isinf (snd (plateau_run (Fin 1) i)) = false) ->
   has_inf [Fin 1; Fin 1] = false).
Proof.
  apply (no_stop_before_full_window (constant_test NaN) (plateau_run (Fin 1))
           "moving_average" (Fin 1) 2 4 4 [Fin 1; Fin 1] [Fin 1; Fin 1]).
  vm_compute. reflexivity.
Defined.

(** *** The per-feature loop *)

Lemma vzip_ok_inv {A B C : Type} (f : A -> B -> C) (a : list A) (b : list B)
    (c : list C) :
  vzip f a b = Ok c ->
  List.length b = List.length a /\
  List.length c = List.length a /\
  forall i da db dc,
    (i < List.length a)%nat -> nth i c dc = f (nth i a da) (nth i b db).
Proof.
  unfold vzip.
  destruct (Nat.eqb_spec (List.length a) (List.length b)) as [E|E]; [|discriminate].
  intros H; injection H as <-.
  split; [symmetry; exact E|].
  split; [rewrite length_map, length_combine; lia|].
  intros i da db dc Hi.
  rewrite (nth_indep _ dc (f da db))
    by (rewrite length_map, length_combine; lia).
  etransitivity;
    [exact (map_nth (fun p => f (fst p) (snd p)) (combine a b) (da, db) i)|].
  rewrite combine_nth by exact E.
  reflexivity.
Qed.

Lemma vlt_nth (l : list fval) (c : fval) (f : nat) :
  nth f (vlt l c) false = flt (nth f l NaN) c.
Proof.
  unfold vlt.
  apply (map_nth (fun x => flt x c) l NaN f).
Qed.

Lemma nth_beyond_false (l : list bool) (f : nat) :
  (List.length l <= f)%nat -> nth f l false = false.
Proof. intros H; apply nth_overflow; exact H. Qed.

Section PerFeature.

Variable C : pkg_constants.
Variable g : estimator_graph.
Variable np_sqrt : fval -> fval.
Variable convergence_criteria : string.
Variable stopping_criteria : fval.

Let step := update_converged C g np_sqrt convergence_criteria stopping_criteria.

(** The status after a pass, feature by feature. *)
Lemma update_converged_entry (converged_prev : list bool) (ll_prev : list fval)
    (u : update) (conv : list bool) :
  step converged_prev ll_prev u = Ok conv ->
  List.length conv = List.length converged_prev /\
  forall f,
    (f < List.length converged_prev)%nat ->
    nth f conv false
    = nth f converged_prev false
      || (loss_plateau stopping_criteria ll_prev u f
          && nth f (features_updated u) false)
      || gradient_below C g u f
      || ((convergence_criteria =? "all_converged_ll")
          && step_below C g np_sqrt u f).
Proof.
  unfold step, update_converged, gradient_below, step_below, both_below,
    np_logical_or, np_logical_and, ll_converged.
  destruct (x_norm g np_sqrt (idx_train_loc g) (model_vars_idx_train_loc g) (x_step u))
    as [xl|e]; cbn [bind]; [|discriminate].
  destruct (x_norm g np_sqrt (idx_train_scale g) (model_vars_idx_train_scale g) (x_step u))
    as [xs|e]; cbn [bind]; [|discriminate].
  destruct (vzip _ ll_prev (ll_current u)) as [llc|e] eqn:Ellc; cbn [bind]; [|discriminate].
  destruct (vzip andb llc (features_updated u)) as [fb|e] eqn:Efb; cbn [bind]; [|discriminate].
  destruct (vzip orb converged_prev fb) as [c1|e] eqn:Ec1; cbn [bind]; [|discriminate].
  destruct (grad_norm g (idx_train_loc g) (jac_train u)) as [gl|e]; cbn [bind]; [|discriminate].
  destruct (grad_norm g (idx_train_scale g) (jac_train u)) as [gs|e]; cbn [bind]; [|discriminate].
  destruct (vzip andb (vlt gl _) (vlt gs _)) as [gb|e] eqn:Egb; cbn [bind]; [|discriminate].
  destruct (vzip orb c1 gb) as [c2|e] eqn:Ec2; cbn [bind]; [|discriminate].
  apply vzip_ok_inv in Ellc as (Lllc1 & Lllc2 & Nllc).
  apply vzip_ok_inv in Efb as (Lfb1 & Lfb2 & Nfb).
  apply vzip_ok_inv in Ec1 as (Lc11 & Lc12 & Nc1).
  apply vzip_ok_inv in Egb as (Lgb1 & Lgb2 & Ngb).
  apply vzip_ok_inv in Ec2 as (Lc21 & Lc22 & Nc2).
  assert (Hc2 : forall f, (f < List.length converged_prev)%nat ->
            nth f c2 false
            = nth f converged_prev false
              || (loss_plateau stopping_criteria ll_prev u f
                  && nth f (features_updated u) false)
              || (flt (nth f gl NaN) (GTOL_LL_BY_FEATURE_LOC C)
                  && flt (nth f gs NaN) (GTOL_LL_BY_FEATURE_SCALE C))).
  { intros f Hf.
    rewrite (Nc2 f false false false) by lia.
    rewrite (Nc1 f false false false) by lia.
    rewrite (Nfb f false false false) by lia.
    rewrite (Nllc f NaN NaN false) by lia.
    rewrite (Ngb f false false false) by lia.
    rewrite !vlt_nth.
    reflexivity. }
  destruct (convergence_criteria =? "all_converged_ll"); cbn [andb].
  - destruct (vzip andb (vlt xl _) (vlt xs _)) as [xb|e] eqn:Exb; cbn [bind]; [|discriminate].
    intros Hconv.
    apply vzip_ok_inv in Exb as (Lxb1 & Lxb2 & Nxb).
    apply vzip_ok_inv in Hconv as (Lc1 & Lc2 & Nc).
    split; [lia|].
    intros f Hf.
    rewrite (Nc f false false false) by lia.
    rewrite Hc2 by exact Hf.
    rewrite (Nxb f false false false) by lia.
    rewrite !vlt_nth.
    reflexivity.
  - intros H; injection H as <-.
    split; [lia|].
    intros f Hf.
    rewrite Hc2 by exact Hf.
    rewrite orb_false_r.
    reflexivity.
Qed.

(** A pass never unmarks a feature. *)
Lemma update_converged_mono (converged_prev : list bool) (ll_prev : list fval)
    (u : update) (conv : list bool) :
  step converged_prev ll_prev u = Ok conv ->
  List.length conv = List.length converged_prev /\
  forall f, nth f converged_prev false = true -> nth f conv false = true.
Proof.
  intros H.
  apply update_converged_entry in H as [Hlen Hentry].
  split; [exact Hlen|].
  intros f Hf.
  destruct (Nat.lt_ge_cases f (List.length converged_prev)) as [Hlt|Hge].
  - rewrite Hentry by exact Hlt.
    rewrite Hf. reflexivity.
  - rewrite nth_beyond_false in Hf by exact Hge. discriminate.
Qed.

Variable ll_init : list fval.
Variable run_update : nat -> update.

Let run := feature_loop C g np_sqrt convergence_criteria stopping_criteria run_update.

Lemma feature_loop_mono (fuel k : nat) (conv : list bool) (ll : list fval)
    (c' : list bool) :
  converged_of (run fuel k conv ll) = Some c' ->
  forall f, nth f conv false = true -> nth f c' false = true.
Proof.
  revert k conv ll.
  induction fuel as [|fuel IH]; intros k conv ll Hc f Hf.
  - unfold run in Hc; cbn in Hc. injection Hc as <-. exact Hf.
  - unfold run in Hc; cbn [feature_loop] in Hc.
    destruct (existsb negb conv).
    + fold step in Hc.
      destruct (step conv ll (run_update k)) as [c1|e] eqn:Es; [|discriminate].
      apply update_converged_mono in Es as [_ Hmono].
      eapply IH; [exact Hc | apply Hmono; exact Hf].
    + cbn in Hc. injection Hc as <-. exact Hf.
Qed.

(** Running for [a + b] passes is running for [a] and going on for [b]. *)
Lemma feature_loop_add (a b k : nat) (conv : list bool) (ll : list fval) :
  run (a + b) k conv ll
  = match run a k conv ll with
    | FRunning k' c' l' => run b k' c' l'
    | o => o
    end.
Proof.
  revert k conv ll.
  induction a as [|a IH]; intros k conv ll.
  - reflexivity.
  - unfold run; cbn [Nat.add feature_loop].
    destruct (existsb negb conv); [|reflexivity].
    destruct (update_converged _ _ _ _ _ conv ll (run_update k)) as [c1|e];
      [|reflexivity].
    apply IH.
Qed.

Lemma feature_loop_longer (fuel1 fuel2 k : nat) (conv : list bool) (ll : list fval)
    (c1 c2 : list bool) :
  (fuel1 <= fuel2)%nat ->
  converged_of (run fuel1 k conv ll) = Some c1 ->
  converged_of (run fuel2 k conv ll) = Some c2 ->
  forall f, nth f c1 false = true -> nth f c2 false = true.
Proof.
  intros Hle H1 H2 f Hf.
  replace fuel2 with (fuel1 + (fuel2 - fuel1))%nat in H2 by lia.
  rewrite feature_loop_add in H2.
  destruct (run fuel1 k conv ll) as [k' c l|k' c l|e]; cbn in H1.
  - injection H1 as ->. cbn in H2. injection H2 as <-. exact Hf.
  - injection H1 as ->.
    eapply feature_loop_mono; [exact H2 | exact Hf].
  - discriminate.
Qed.

End PerFeature.



(** C7. Within a stage the status vector only grows: the loop starts from
    all false, a pass keeps every bit that is set, and a feature marked
    after some passes is marked after any larger number of passes. *)
Theorem converged_monotonic :
  forall (C : pkg_constants) (g : estimator_graph) (np_sqrt : fval -> fval)
         (convergence_criteria : string) (stopping_criteria : fval)
         (ll_init : list fval) (run_update : nat -> update),
    let stage := train_all_converged C g np_sqrt convergence_criteria
                   stopping_criteria ll_init run_update in
    converged_of (stage 0%nat) = Some (np_repeat_false (n_features g)) /\
    (forall converged_prev ll_prev u converged_current f,
       update_converged C g np_sqrt convergence_criteria stopping_criteria
                        converged_prev ll_prev u = Ok converged_current ->
       nth f converged_prev false = true ->
       nth f converged_current false = true) /\
    (forall fuel1 fuel2 c1 c2 f,
       (fuel1 <= fuel2)%nat ->
       converged_of (stage fuel1) = Some c1 ->
       converged_of (stage fuel2) = Some c2 ->
       nth f c1 false = true ->
       nth f c2 false = true).
Proof.
  intros C g np_sqrt criteria thr ll_init run_update stage.
  split; [reflexivity|].
  split.
  - intros prev ll_prev u conv f Hstep Hf.
    apply update_converged_mono in Hstep as [_ Hmono].
    apply Hmono; exact Hf.
  - intros fuel1 fuel2 c1 c2 f Hle H1 H2 Hf.
    unfold stage, train_all_converged in H1, H2.
    eapply feature_loop_longer; [exact Hle | exact H1 | exact H2 | exact Hf].
Qed.

(** A run of the theorem on the sample session: feature 0 is marked after
    two passes and is still marked after five. *)
Lemma converged_monotonic_witness :
  converged_of (train_all_converged sample_constants sample_graph sample_sqrt
                  "all_converged_ll" (Fin (1 # 1000000))
                  [Fin 8; Fin 8] sample_updates 2) = Some [true; false] /\
  converged_of (train_all_converged sample_constants sample_graph sample_sqrt
                  "all_converged_ll" (Fin (1 # 1000000))
                  [Fin 8; Fin 8] sample_updates 5) = Some [true; false] /\
  (nth 0 [true; false] false = true -> nth 0 [true; false] false = true).
Proof.
  split; [vm_compute; reflexivity|].
  split; [vm_compute; reflexivity|].
  apply (proj2 (proj2 (converged_monotonic sample_constants sample_graph
                         sample_sqrt "all_converged_ll" (Fin (1 # 1000000))
                         [Fin 8; Fin 8] sample_updates))
           2%nat 5%nat [true; false] [true; false] 0%nat).
  - lia.
  - vm_compute. reflexivity.
  - vm_compute. reflexivity.
Defined.

(** *** Configuration errors *)

Lemma unknown_criterion_inv (c : string) :
  unknown_criterion c = true ->
  (c =? "step") = false /\
  (c =? "all_converged_ll") = false /\
  (c =? "loss_change_to_last") = false /\
  (c =? "moving_average") = false /\
  (c =? "scaled_moving_average") = false /\
  (c =? "absolute_moving_average") = false /\
  (c =? "t_test") = false.
Proof.
  unfold unknown_criterion, windowed_criteria.
  cbn [existsb].
  intros H.
  apply negb_true_iff in H.
  repeat (apply orb_false_iff in H as [? H]).
  repeat split; assumption.
Qed.

Section UnknownCriterion.

Variable welch_t_test : list fval -> list fval -> fval.
Variable session : nat -> Z * fval.
Variable convergence_criteria : string.
Variable stopping_criteria : fval.
Hypothesis Hunknown : unknown_criterion convergence_criteria = true.

(** With a name it does not know [should_stop] never returns true. *)
Lemma should_stop_unknown (prev cur : list fval) (step : Z) :
  cur <> [] ->
  exists v,
    should_stop welch_t_test convergence_criteria stopping_criteria prev cur step
    = Ok v /\ truthy v = false.
Proof.
  intros Hne.
  destruct (unknown_criterion_inv _ Hunknown) as (_ & _ & E1 & E2 & E3 & E4 & E5).
  assert (Hlen : (0 < List.length cur)%nat)
    by (destruct cur; [congruence | simpl; lia]).
  unfold should_stop.
  rewrite py_mod_ok by exact Hlen.
  cbn [bind].
  rewrite E1, E2, E3, E4, E5.
  destruct (_ && _); eexists; split; reflexivity.
Qed.

Lemma loop_unknown (fuel k : nat) (prev cur : list fval) :
  cur <> [] ->
  exists prev' cur',
    loop welch_t_test session convergence_criteria stopping_criteria
         fuel k prev cur = Running (k + fuel) prev' cur'.
Proof.
  revert k prev cur.
  induction fuel as [|fuel IH]; intros k prev cur Hne.
  - exists prev, cur. cbn [loop]. rewrite Nat.add_0_r. reflexivity.
  - cbn [loop].
    assert (Hlen : (0 < List.length cur)%nat)
      by (destruct cur; [congruence | simpl; lia]).
    unfold iteration.
    destruct (session k) as [train_step global_loss].
    rewrite !py_mod_ok by exact Hlen.
    cbn [bind].
    set (p1 := if (_ =? 1)%nat then cur else prev).
    set (c1 := set_nth _ global_loss cur).
    assert (Hc1 : c1 <> []).
    { intros E. apply (f_equal (@List.length fval)) in E.
      unfold c1 in E. rewrite set_nth_length in E. simpl in E. lia. }
    destruct (should_stop_unknown p1 c1 train_step Hc1) as (v & -> & Hv).
    cbn [bind]. rewrite Hv.
    destruct (IH (S k) p1 c1 Hc1) as (p' & c' & ->).
    exists p', c'.
    f_equal. lia.
Qed.

End UnknownCriterion.

(** C8 fails as stated: a criterion name that [train] does not know raises
    nothing.  The call enters the windowed loop, and after twenty passes over
    a loss that does not change the loop is still running. *)
Lemma train_unknown_criterion_counterexample :
  train (constant_test NaN) sample_sqrt sample_constants sample_graph
        sample_session "not_a_criterion" (Some 2%nat) (Some (Fin (5 # 100))) 20
  = TrainedToConvergence (Running 20 [Fin 1; Fin 1] [Fin 1; Fin 1]) /\
  train_raised
    (train (constant_test NaN) sample_sqrt sample_constants sample_graph
           sample_session "not_a_criterion" (Some 2%nat) (Some (Fin (5 # 100))) 20)
  = None.
Proof.
  vm_compute.
  split; reflexivity.
Qed.

(** C8, as the code has it.  [initialize] without a working directory and
    with one of the six save, summary or export periods raises [ValueError];
    [get] with a key that is not among the parameters raises [ValueError];
    the name of the convergence criterion is not validated: [train] raises
    nothing for a name it does not know. *)
Theorem invalid_configuration :
  (forall (value : Type) (model_attribute : string -> option value)
          save_checkpoint_steps save_checkpoint_secs save_summaries_steps
          save_summaries_secs stop_at_step stop_below_loss_change
          loss_averaging_steps export_steps export_secs export
          use_monitored_session,
     forallb (fun b : bool => b)
       [is_none save_checkpoint_steps; is_none save_checkpoint_secs;
        is_none save_summaries_steps; is_none save_summaries_secs;
        is_none export_steps; is_none export_secs] = false ->
     initialize value model_attribute
                None save_checkpoint_steps save_checkpoint_secs
                save_summaries_steps save_summaries_secs stop_at_step
                stop_below_loss_change loss_averaging_steps export_steps
                export_secs export use_monitored_session
     = Err (ValueError "No working_dir provided but actions saving data requested")) /\
  (forall (value : Type) (param_shapes : list string)
          (model_attribute : string -> option value),
     (forall s,
        in_shapes param_shapes s = false ->
        get value param_shapes model_attribute (KeyStr s)
        = Err (unknown_parameter s)) /\
     (forall l k,
        first_unknown param_shapes l = Some k ->
        get value param_shapes model_attribute (KeyIterable l)
        = Err (unknown_parameter k))) /\
  (forall welch_t_test np_sqrt C g session convergence_criteria
          loss_window_size stopping_criteria fuel,
     unknown_criterion convergence_criteria = true ->
     (0 < loss_window_size)%nat ->
     train_raised
       (train welch_t_test np_sqrt C g session convergence_criteria
              (Some loss_window_size) stopping_criteria fuel)
     = None).
Proof.
  split; [|split].
  - intros until use_monitored_session. intros H.
    unfold initialize.
    cbn [is_none andb].
    rewrite H. reflexivity.
  - intros value param_shapes model_attribute.
    split.
    + intros s Hs. cbn [get]. rewrite Hs. reflexivity.
    + intros l k Hk. cbn [get]. rewrite Hk. reflexivity.
  - intros welch np_sqrt C g session criteria n thr fuel Hunknown Hn.
    destruct (unknown_criterion_inv _ Hunknown) as (E1 & E2 & _).
    unfold train.
    rewrite E1. cbn [existsb]. rewrite E2. cbn [orb].
    unfold _train_to_convergence.
    destruct (loop_unknown welch (run_train session) criteria
                (match thr with
                 | Some s => s
                 | None => default_stopping_criteria criteria
                 end) Hunknown fuel 0
                (np_tile PInf n) (np_tile PInf n)) as (p & c & ->).
    + intros E. apply (f_equal (@List.length fval)) in E.
      unfold np_tile in E. rewrite repeat_length in E. simpl in E. lia.
    + reflexivity.
Qed.

(** Runs of the theorem: a checkpoint period without a working directory, a
    key that is not a parameter, and an unknown criterion name. *)
Lemma invalid_configuration_witness :
  initialize unit (fun _ : string => Some tt)
             None (Some 10%nat) None None None None None 50 None None None true
  = Err (ValueError "No working_dir provided but actions saving data requested") /\
  get unit ["a"; "b"] (fun _ : string => Some tt) (KeyStr "sigma")
  = Err (unknown_parameter "sigma") /\
  get unit ["a"; "b"] (fun _ : string => Some tt) (KeyIterable ["a"; "sigma"; "b"])
  = Err (unknown_parameter "sigma") /\
  train_raised
    (train (constant_test NaN) sample_sqrt sample_constants sample_graph
           sample_session "not_a_criterion" (Some 2%nat) None 7)
  = None.
Proof.
  destruct invalid_configuration as (Hinit & Hget & Htrain).
  split; [apply Hinit; reflexivity|].
  destruct (Hget unit ["a"; "b"] (fun _ : string => Some tt)) as [Hstr Hiter].
  split; [apply Hstr; reflexivity|].
  split; [apply Hiter; reflexivity|].
  apply Htrain; [reflexivity | lia].
Defined.

Lemma bind_inv {A B : Type} (x : result A) (k : A -> result B) (b : B) :
  bind x k = Ok b -> exists a, x = Ok a /\ k a = Ok b.
Proof.
  destruct x as [a|e]; cbn [bind]; intros H.
  - exists a; split; [reflexivity | exact H].
  - discriminate H.
Qed.
(** *** TFEstimator.get *)

Lemma existsb_eqb_In (s : string) (l : list string) :
  existsb (String.eqb s) l = true <-> In s l.
Proof.
  rewrite existsb_exists.
  split.
  - intros (x & Hx & E). apply String.eqb_eq in E. subst. exact Hx.
  - intros H. exists s. split; [exact H | apply String.eqb_refl].
Qed.

Lemma dict_keys_spec (l seen : list string) :
  (forall s, In s (dict_keys seen l) <-> In s l /\ ~ In s seen) /\
  NoDup (dict_keys seen l).
Proof.
  revert seen.
  induction l as [|x t IH]; intros seen; cbn [dict_keys].
  - split; [intros s; simpl; tauto | constructor].
  - destruct (existsb (String.eqb x) seen) eqn:Ex.
    + apply existsb_eqb_In in Ex.
      destruct (IH seen) as [Hin Hnd].
      split; [|exact Hnd].
      intros s. rewrite Hin. simpl.
      split; [tauto|].
      intros [[->|H] Hs]; [contradiction | tauto].
    + assert (Hx : ~ In x seen).
      { intros H. apply existsb_eqb_In in H. congruence. }
      destruct (IH (x :: seen)) as [Hin Hnd].
      split.
      * intros s. simpl. rewrite Hin. simpl.
        split.
        -- intros [<-|[H Hs]]; [tauto|]. split; [tauto|]. tauto.
        -- intros [[<-|H] Hs]; [tauto|].
           destruct (string_dec x s) as [->|Hne]; [tauto|]. right. tauto.
      * constructor; [|exact Hnd].
        rewrite Hin. simpl. tauto.
Qed.

Lemma mapM_fst {A : Type} (f : string -> result A) (l : list string)
    (d : list (string * A)) :
  mapM (fun s => bind (f s) (fun v => Ok (s, v))) l = Ok d ->
  map fst d = l /\ forall s v, In (s, v) d -> f s = Ok v.
Proof.
  revert d.
  induction l as [|x t IH]; intros d H; cbn [mapM] in H.
  - injection H as <-. split; [reflexivity | intros s v []].
  - destruct (f x) as [v|e] eqn:Ef; cbn [bind] in H; [|discriminate].
    destruct (mapM _ t) as [d'|e] eqn:Em; [|discriminate].
    injection H as <-.
    destruct (IH d' eq_refl) as [Hfst Hall].
    split; [simpl; rewrite Hfst; reflexivity|].
    intros s w [E|Hin]; [injection E as <- <-; exact Ef | apply Hall; exact Hin].
Qed.

Lemma first_unknown_none (shapes l : list string) :
  first_unknown shapes l = None <-> forall s, In s l -> in_shapes shapes s = true.
Proof.
  induction l as [|x t IH]; cbn [first_unknown].
  - split; [intros _ s [] | reflexivity].
  - destruct (in_shapes shapes x) eqn:Ex.
    + rewrite IH. split.
      * intros H s [<-|Hs]; [exact Ex | apply H; exact Hs].
      * intros H s Hs. apply H. right. exact Hs.
    + split; [discriminate|].
      intros H. specialize (H x (or_introl eq_refl)). congruence.
Qed.

Lemma first_unknown_some (shapes l : list string) (bad : string) :
  first_unknown shapes l = Some bad ->
  In bad l /\ in_shapes shapes bad = false.
Proof.
  induction l as [|x t IH]; cbn [first_unknown]; [discriminate|].
  destruct (in_shapes shapes x) eqn:Ex.
  - intros H. destruct (IH H). split; [right|]; assumption.
  - intros H. injection H as <-. split; [left; reflexivity | exact Ex].
Qed.

(** X11. When [get] returns for a collection of keys, every key is a
    parameter, and the result is a dict whose keys are the requested keys,
    each once and at its first place, and whose values are the attributes of
    the model of those names.  When it raises [ValueError] the key it names
    was requested and is not a parameter. *)
Theorem get_iterable :
  forall (value : Type) (param_shapes : list string)
         (model_attribute : string -> option value) (l : list string),
    (forall r,
       get value param_shapes model_attribute (KeyIterable l) = Ok r ->
       (forall s, In s l -> In s param_shapes) /\
       exists d,
         r = Dict value d /\
         NoDup (map fst d) /\
         (forall s, In s (map fst d) <-> In s l) /\
         (forall s v, In (s, v) d -> model_attribute s = Some v)) /\
    (forall bad,
       get value param_shapes model_attribute (KeyIterable l)
       = Err (unknown_parameter bad) ->
       In bad l /\ ~ In bad param_shapes).
Proof.
  intros value shapes attr l.
  split.
  - intros r Hr. cbn [get] in Hr.
    destruct (first_unknown shapes l) as [bad|] eqn:Ef; [discriminate|].
    split.
    { intros s Hs.
      apply existsb_eqb_In.
      apply (proj1 (first_unknown_none shapes l) Ef s Hs). }
    cbn [_get_unsafe] in Hr.
    apply bind_inv in Hr as (d & Hd & Hr).
    injection Hr as <-.
    exists d. split; [reflexivity|].
    apply mapM_fst in Hd as [Hfst Hall].
    destruct (dict_keys_spec l []) as [Hin Hnd].
    rewrite Hfst.
    split; [exact Hnd|].
    split.
    + intros s. rewrite Hin. simpl. tauto.
    + intros s v Hsv. specialize (Hall s v Hsv).
      unfold getattribute in Hall.
      destruct (attr s); [injection Hall as ->; reflexivity | discriminate].
  - intros bad Hbad. cbn [get] in Hbad.
    destruct (first_unknown shapes l) as [bad'|] eqn:Ef.
    + injection Hbad as Hbad.
      apply first_unknown_some in Ef as [Hin Hout].
      subst bad'.
      split; [exact Hin|].
      intros H. apply existsb_eqb_In in H. unfold in_shapes in Hout. congruence.
    + cbn [_get_unsafe] in Hbad.
      destruct (mapM _ _) as [d|e] eqn:Em; cbn [bind] in Hbad; [discriminate|].
      exfalso.
      injection Hbad as ->.
      clear -Em.
      revert Em. generalize (dict_keys [] l). intros ks.
      induction ks as [|x t IH]; cbn [mapM]; [discriminate|].
      unfold getattribute at 1.
      destruct (attr x); cbn [bind].
      * destruct (mapM _ t) as [d|e] eqn:Em; [discriminate|].
        intros H. injection H as ->. apply IH. reflexivity.
      * discriminate.
Qed.

Lemma get_iterable_witness :
  get unit ["a"; "b"] (fun _ => Some tt) (KeyIterable ["b"; "a"; "b"])
  = Ok (Dict unit [("b", tt); ("a", tt)]) /\
  (forall s, In s ["b"; "a"; "b"] -> In s ["a"; "b"]) /\
  exists d,
    Dict unit [("b", tt); ("a", tt)] = Dict unit d /\
    NoDup (map fst d) /\
    (forall s, In s (map fst d) <-> In s ["b"; "a"; "b"]) /\
    (forall s v, In (s, v) d -> (fun _ : string => Some tt) s = Some v).
Proof.
  split; [reflexivity|].
  apply (proj1 (get_iterable unit ["a"; "b"] (fun _ => Some tt) ["b"; "a"; "b"])).
  reflexivity.
Defined.

(** *** More on the windowed loop *)

Section WindowedLoopMore.

Variable welch_t_test : list fval -> list fval -> fval.
Variable session : nat -> Z * fval.
Variable convergence_criteria : string.
Variable stopping_criteria : fval.

Let stop := should_stop welch_t_test convergence_criteria stopping_criteria.
Let pass := iteration welch_t_test session convergence_criteria stopping_criteria.
Let run := loop welch_t_test session convergence_criteria stopping_criteria.

(** With a window of one loss, the previous window is never overwritten. *)
Lemma loop_window_one (fuel k : nat) (cur : list fval) :
  List.length cur = 1%nat ->
  exists cur', run fuel k [PInf] cur = Running (k + fuel) [PInf] cur'.
Proof.
  revert k cur.
  induction fuel as [|fuel IH]; intros k cur Hlen.
  - exists cur. unfold run; cbn [loop]. rewrite Nat.add_0_r. reflexivity.
  - unfold run; cbn [loop]. unfold iteration.
    destruct (session k) as [train_step global_loss].
    rewrite !py_mod_ok by lia.
    rewrite Hlen. cbn [Z.of_nat Pos.of_succ_nat].
    rewrite !Z.mod_1_r. cbn [Z.to_nat bind Nat.eqb].
    unfold should_stop.
    rewrite set_nth_length, Hlen.
    rewrite py_mod_ok by lia.
    cbn [Z.of_nat Pos.of_succ_nat]. rewrite Z.mod_1_r.
    cbn [Z.to_nat bind Nat.eqb has_inf existsb isinf orb negb andb truthy].
    destruct (IH (S k) (set_nth 0 global_loss cur)) as (cur' & E).
    { rewrite set_nth_length. exact Hlen. }
    fold run. rewrite E.
    exists cur'. f_equal. lia.
Qed.

(** [should_stop] returns on windows of two or more losses. *)
Lemma should_stop_ok (prev cur : list fval) (step : Z) :
  (2 <= List.length cur)%nat -> exists v, stop prev cur step = Ok v.
Proof.
  intros Hlen.
  unfold stop, should_stop.
  rewrite py_mod_ok by lia. cbn [bind].
  destruct (_ && _); [|eexists; reflexivity].
  unfold nth_from_end.
  destruct (Nat.leb_spec 2 (List.length cur)) as [_|H]; [|lia].
  destruct (Nat.leb_spec 1 (List.length cur)) as [_|H]; [|lia].
  cbn [bind].
  repeat (destruct (convergence_criteria =? _)%string; [eexists; reflexivity|]).
  eexists; reflexivity.
Qed.

Lemma loop_never_raises (fuel k : nat) (prev cur : list fval) (e : exn) :
  (2 <= List.length cur)%nat -> run fuel k prev cur <> Raised e.
Proof.
  revert k prev cur.
  induction fuel as [|fuel IH]; intros k prev cur Hlen.
  - unfold run; cbn [loop]. discriminate.
  - unfold run; cbn [loop]. unfold iteration.
    destruct (session k) as [train_step global_loss].
    rewrite !py_mod_ok by lia. cbn [bind].
    match goal with
    | |- context [should_stop _ _ _ ?p ?c ?s] =>
        destruct (should_stop_ok p c s) as (v & Ev)
    end.
    { rewrite set_nth_length. exact Hlen. }
    unfold stop in Ev. rewrite Ev. cbn [bind].
    destruct (truthy v); [discriminate|].
    apply IH. rewrite set_nth_length. exact Hlen.
Qed.

End WindowedLoopMore.

(** X14. With a window of one loss the windowed loop never stops, whatever
    the criterion, the threshold and the losses: the previous window is
    copied only at steps that leave the remainder 1 when divided by the
    window size, so it keeps its initial infinite value. *)
Theorem window_of_one_never_stops :
  forall (welch_t_test : list fval -> list fval -> fval)
         (session : nat -> Z * fval)
         (convergence_criteria : string) (stopping_criteria : fval) (fuel : nat),
    exists loss_hist,
      _train_to_convergence welch_t_test session convergence_criteria
                            stopping_criteria 1 fuel
      = Running fuel [PInf] loss_hist.
Proof.
  intros welch session criteria thr fuel.
  unfold _train_to_convergence.
  apply (loop_window_one welch session criteria thr fuel 0 (np_tile PInf 1)).
  reflexivity.
Qed.

(** X15. With a window of at least one loss the windowed loop raises
    nothing: after any number of passes it has stopped or is still
    running. *)
Theorem windowed_loop_never_raises :
  forall (welch_t_test : list fval -> list fval -> fval)
         (session : nat -> Z * fval)
         (convergence_criteria : string) (stopping_criteria : fval)
         (loss_window_size fuel : nat) (e : exn),
    (0 < loss_window_size)%nat ->
    _train_to_convergence welch_t_test session convergence_criteria
                          stopping_criteria loss_window_size fuel
    <> Raised e.
Proof.
  intros welch session criteria thr n fuel e Hn.
  unfold _train_to_convergence.
  destruct (Nat.eq_dec n 1) as [->|Hne].
  - destruct (loop_window_one welch session criteria thr fuel 0 (np_tile PInf 1)
                eq_refl) as (cur & E).
    change (loop welch session criteria thr fuel 0 [PInf] (np_tile PInf 1)
            <> Raised e).
    rewrite E. discriminate.
  - apply loop_never_raises.
    unfold np_tile. rewrite repeat_length. lia.
Qed.

Lemma windowed_loop_never_raises_witness :
  _train_to_convergence (constant_test NaN) falling_run "loss_change_to_last"
                        (Fin (1 # 10)) 3 12
  <> Raised (IndexError "index out of bounds").
Proof.
  apply (windowed_loop_never_raises (constant_test NaN) falling_run
           "loss_change_to_last" (Fin (1 # 10)) 3 12).
  lia.
Defined.

Section ConsecutiveSteps.

Variable welch_t_test : list fval -> list fval -> fval.
Variable session : nat -> Z * fval.
Variable convergence_criteria : string.
Variable stopping_criteria : fval.

(** The global step advances by one from a pass to the next. *)
Hypothesis Hsteps : forall k, fst (session (S k)) = (fst (session k) + 1)%Z.

Let pass := iteration welch_t_test session convergence_criteria stopping_criteria.
Let run := loop welch_t_test session convergence_criteria stopping_criteria.

Lemma steps_consecutive (c k : nat) :
  (c <= k)%nat -> fst (session k) = (fst (session c) + Z.of_nat (k - c))%Z.
Proof.
  induction k as [|k IH]; intros Hck.
  - replace c with 0%nat by lia. simpl. lia.
  - destruct (Nat.eq_dec c (S k)) as [->|Hne].
    + rewrite Nat.sub_diag. simpl. lia.
    + rewrite Hsteps, IH by lia.
      replace (S k - c)%nat with (S (k - c)) by lia.
      lia.
Qed.

Lemma should_stop_boundary (prev cur : list fval) (step : Z) (v : option bool) :
  should_stop welch_t_test convergence_criteria stopping_criteria prev cur step
  = Ok v ->
  truthy v = true ->
  has_inf prev = false /\ (step mod Z.of_nat (List.length cur) = 0)%Z.
Proof.
  unfold should_stop.
  destruct (py_mod step (List.length cur)) as [m|e] eqn:Em; cbn [bind]; [|discriminate].
  apply py_mod_inv in Em as (Hn & _ & ->).
  pose proof (py_mod_zero step (List.length cur) Hn) as Hz.
  destruct (_ =? 0)%nat eqn:E0; cbn [andb].
  - destruct (has_inf prev); cbn [negb].
    + intros H; injection H as <-; discriminate.
    + intros _ _. split; [reflexivity | apply Hz; reflexivity].
  - intros H; injection H as <-; discriminate.
Qed.

(** What one pass does, with the step at which the previous window is
    replaced and the step at which the loop may stop. *)
Lemma iteration_steps (k : nat) (prev cur p1 c1 : list fval) (stopped : bool) :
  pass k prev cur = Ok (p1, c1, stopped) ->
  let n := Z.of_nat (List.length cur) in
  (0 < List.length cur)%nat /\
  List.length c1 = List.length cur /\
  (count_finite c1 <= S (count_finite cur))%nat /\
  ((p1 = cur /\ (fst (session k) mod n = 1)%Z) \/ p1 = prev) /\
  (stopped = true ->
   has_inf p1 = false /\ (fst (session k) mod n = 0)%Z).
Proof.
  unfold pass, iteration.
  destruct (session k) as [train_step global_loss]; cbn [fst].
  destruct (py_mod train_step (List.length cur)) as [m|e] eqn:Em;
    cbn [bind]; [|discriminate].
  destruct (py_mod (train_step - 1) (List.length cur)) as [i|e];
    cbn [bind]; [|discriminate].
  match goal with
  | |- context [should_stop _ _ _ ?p ?c ?s] =>
      destruct (should_stop welch_t_test convergence_criteria stopping_criteria p c s)
        as [v|e] eqn:Es
  end; cbn [bind]; [|discriminate].
  intros H; injection H as <- <- <-.
  apply py_mod_inv in Em as (Hn & Hm & ->).
  split; [exact Hn|].
  split; [apply set_nth_length|].
  split; [apply count_finite_set_nth|].
  split.
  - destruct (Nat.eqb_spec (Z.to_nat (train_step mod Z.of_nat (List.length cur))) 1)
      as [E|E]; [left | right; reflexivity].
    split; [reflexivity|].
    pose proof (Z.mod_pos_bound train_step (Z.of_nat (List.length cur)) ltac:(lia)).
    lia.
  - intros Ht.
    destruct (should_stop_boundary _ _ _ _ Es Ht) as [Hfin Hz].
    rewrite set_nth_length in Hz.
    split; assumption.
Qed.

Lemma loop_two_windows (n fuel k k' : nat) (prev cur p' c' : list fval) :
  (0 < n)%nat ->
  List.length cur = n ->
  (count_finite cur <= k)%nat ->
  (has_inf prev = false ->
   exists c, (c < k)%nat /\ (n <= c)%nat /\
             (fst (session c) mod Z.of_nat n = 1)%Z) ->
  run fuel k prev cur = Stopped k' p' c' ->
  (2 * n <= k')%nat.
Proof.
  intros Hn.
  revert k prev cur.
  induction fuel as [|fuel IH]; intros k prev cur Hlen Hcnt Hcopy Hrun.
  - discriminate Hrun.
  - unfold run in Hrun; cbn [loop] in Hrun. fold pass in Hrun.
    destruct (pass k prev cur) as [[[p1 c1] stopped]|e] eqn:Hpass; [|discriminate].
    apply iteration_steps in Hpass as (_ & Hlen1 & Hcnt1 & Hp1 & Hstop).
    rewrite Hlen in *.
    assert (Hcopy1 : has_inf p1 = false ->
              exists c, (c < S k)%nat /\ (n <= c)%nat /\
                        (fst (session c) mod Z.of_nat n = 1)%Z).
    { intros Hfin.
      destruct Hp1 as [[-> Hmod] | ->].
      - exists k. split; [lia|]. split; [|exact Hmod].
        apply count_finite_no_inf in Hfin. lia.
      - destruct (Hcopy Hfin) as (c & Hc & Hnc & Hmod).
        exists c. split; [lia|]. split; assumption. }
    destruct stopped.
    + injection Hrun as <- <- <-.
      destruct (Hstop eq_refl) as [Hfin Hzero].
      destruct (Hcopy1 Hfin) as (c & Hc & Hnc & Hmod).
      rewrite (steps_consecutive c k) in Hzero by lia.
      rewrite <- Z.add_mod_idemp_l, Hmod in Hzero by lia.
      assert (Hd : (Z.of_nat n <= 1 + Z.of_nat (k - c))%Z).
      { destruct (Z.lt_ge_cases (1 + Z.of_nat (k - c)) (Z.of_nat n)) as [Hlt|Hge];
          [|lia].
        rewrite Z.mod_small in Hzero by lia. lia. }
      lia.
    + apply (IH (S k) p1 c1); [exact Hlen1 | lia | exact Hcopy1 | exact Hrun].
Qed.

End ConsecutiveSteps.

(** X16. When the global step advances by one per pass, the windowed loop
    makes at least twice as many passes as the window is long before it
    stops: one window to fill the current losses, one more before the
    previous window is compared at a boundary. *)
Theorem no_stop_before_two_windows :
  forall (welch_t_test : list fval -> list fval -> fval)
         (session : nat -> Z * fval)
         (convergence_criteria : string) (stopping_criteria : fval)
         (loss_window_size fuel iterations : nat)
         (previous_loss_hist loss_hist : list fval),
    (forall k, fst (session (S k)) = (fst (session k) + 1)%Z) ->
    _train_to_convergence welch_t_test session convergence_criteria
                          stopping_criteria loss_window_size fuel
    = Stopped iterations previous_loss_hist loss_hist ->
    (2 * loss_window_size <= iterations)%nat.
Proof.
  intros welch session criteria thr n fuel k prev cur Hsteps Hrun.
  unfold _train_to_convergence in Hrun.
  destruct n as [|n'].
  - lia.
  - eapply (loop_two_windows welch session criteria thr Hsteps (S n') fuel 0);
      [lia | apply repeat_length | rewrite count_finite_tile_inf; lia | | exact Hrun].
    intros H. apply has_inf_tile_inf in H. discriminate.
Qed.

Lemma no_stop_before_two_windows_witness : (2 * 2 <= 4)%nat.
Proof.
  apply (no_stop_before_two_windows (constant_test NaN) (plateau_run (Fin 1))
           "moving_average" (Fin 1) 2 4 4 [Fin 1; Fin 1] [Fin 1; Fin 1]).
  - intros k. unfold plateau_run. cbn [fst]. lia.
  - vm_compute. reflexivity.
Defined.

(** *** The end of the per-feature loop and the step loop *)

Lemma existsb_negb_false (l : list bool) :
  existsb negb l = false -> forallb (fun b => b) l = true.
Proof.
  induction l as [|b t IH]; cbn [existsb forallb]; [reflexivity|].
  intros H. apply orb_false_iff in H as [Hb Ht].
  apply negb_false_iff in Hb. rewrite Hb, IH by exact Ht. reflexivity.
Qed.

Lemma feature_loop_outcome (C : pkg_constants) (g : estimator_graph)
    (np_sqrt : fval -> fval) (criteria : string) (thr : fval)
    (run_update : nat -> update) (fuel k : nat) (conv : list bool)
    (ll : list fval) :
  match feature_loop C g np_sqrt criteria thr run_update fuel k conv ll with
  | FDone k' c _ =>
      (k <= k')%nat /\ (k' < k + fuel)%nat /\
      forallb (fun b => b) c = true /\ List.length c = List.length conv
  | FRunning k' c _ => k' = (k + fuel)%nat /\ List.length c = List.length conv
  | FRaised _ => True
  end.
Proof.
  revert k conv ll.
  induction fuel as [|fuel IH]; intros k conv ll; cbn [feature_loop].
  - split; [lia | reflexivity].
  - destruct (existsb negb conv) eqn:Ex.
    + destruct (update_converged _ _ _ _ _ conv ll (run_update k)) as [c1|e] eqn:Es;
        [|exact I].
      apply update_converged_mono in Es as [Hlen _].
      specialize (IH (S k) c1 (ll_current (run_update k))).
      destruct (feature_loop _ _ _ _ _ _ fuel (S k) c1 _) as [k' c l|k' c l|e].
      * destruct IH as (H1 & H2 & H3 & H4). repeat split; try lia; assumption.
      * destruct IH as (H1 & H2). split; lia.
      * exact I.
    + repeat split; try lia. apply existsb_negb_false. exact Ex.
Qed.

(** X17. The per-feature loop ends only when every feature is marked
    converged; it then has made fewer passes than its budget, and its status
    vector has one entry per feature.  A model without features ends before
    the first pass. *)
Theorem all_converged_loop_end :
  forall (C : pkg_constants) (g : estimator_graph) (np_sqrt : fval -> fval)
         (convergence_criteria : string) (stopping_criteria : fval)
         (ll_init : list fval) (run_update : nat -> update) (fuel : nat),
    let stage := train_all_converged C g np_sqrt convergence_criteria
                   stopping_criteria ll_init run_update in
    (forall k conv ll,
       stage fuel = FDone k conv ll ->
       forallb (fun b => b) conv = true /\
       List.length conv = n_features g /\ (k < fuel)%nat) /\
    (forall k conv ll,
       stage fuel = FRunning k conv ll ->
       k = fuel /\ List.length conv = n_features g) /\
    (n_features g = 0%nat -> stage (S fuel) = FDone 0 [] ll_init).
Proof.
  intros C g np_sqrt criteria thr ll_init run_update fuel stage.
  unfold stage, train_all_converged.
  pose proof (feature_loop_outcome C g np_sqrt criteria thr run_update fuel 0
                (np_repeat_false (n_features g)) ll_init) as H.
  unfold np_repeat_false in *. rewrite repeat_length in H.
  split; [|split].
  - intros k conv ll E. rewrite E in H.
    destruct H as (_ & H2 & H3 & H4). repeat split; try assumption; lia.
  - intros k conv ll E. rewrite E in H.
    destruct H as (H1 & H2). split; [lia | exact H2].
  - intros Hn. rewrite Hn. reflexivity.
Qed.

Lemma all_converged_loop_end_witness :
  train_all_converged sample_constants sample_graph sample_sqrt
    "all_converged_ll" (Fin (1 # 1000000)) [Fin 8; Fin 8]
    (fun _ => quiet_update) 3
  = FDone 1 [true; true] [Fin 4; Fin 8] /\
  forallb (fun b => b) [true; true] = true /\
  List.length [true; true] = n_features sample_graph /\ (1 < 3)%nat.
Proof.
  split; [vm_compute; reflexivity|].
  apply (proj1 (all_converged_loop_end sample_constants sample_graph sample_sqrt
                  "all_converged_ll" (Fin (1 # 1000000)) [Fin 8; Fin 8]
                  (fun _ => quiet_update) 3)
           1%nat [true; true] [Fin 4; Fin 8]).
  vm_compute. reflexivity.
Defined.

Lemma step_loop_spec (session : tf_session) (thr : fval) (fuel k k' : nat)
    (final : Z) :
  step_loop session thr fuel k (step_at session k) = StepDone k' final ->
  (k <= k')%nat /\ (k' < k + fuel)%nat /\
  final = step_at session k' /\
  flt (of_Z final) thr = false /\
  forall j, (k <= j)%nat -> (j < k')%nat ->
            flt (of_Z (step_at session j)) thr = true.
Proof.
  revert k.
  induction fuel as [|fuel IH]; intros k; cbn [step_loop]; [discriminate|].
  destruct (flt (of_Z (step_at session k)) thr) eqn:Eb.
  - intros H.
    change (fst (run_train session k)) with (step_at session (S k)) in H.
    apply IH in H as (H1 & H2 & H3 & H4 & H5).
    repeat split; try lia; try assumption.
    intros j Hj1 Hj2.
    destruct (Nat.eq_dec j k) as [->|Hne]; [exact Eb | apply H5; lia].
  - intros H; injection H as <- <-.
    repeat split; try lia; try assumption.
Qed.

(** The loop from pass [k] on, when pass [p] is the first at the budget. *)
Lemma step_loop_runs (session : tf_session) (thr : fval) (p fuel k : nat) :
  (k <= p)%nat ->
  flt (of_Z (step_at session p)) thr = false ->
  (forall j, (k <= j)%nat -> (j < p)%nat ->
             flt (of_Z (step_at session j)) thr = true) ->
  step_loop session thr fuel k (step_at session k)
  = if (p <? k + fuel)%nat
    then StepDone p (step_at session p)
    else StepRunning (k + fuel) (step_at session (k + fuel)).
Proof.
  revert k.
  induction fuel as [|fuel IH]; intros k Hk Hp Hbelow; cbn [step_loop].
  - rewrite Nat.add_0_r.
    destruct (Nat.ltb_spec p k); [lia | reflexivity].
  - destruct (Nat.eq_dec k p) as [->|Hne].
    + rewrite Hp.
      destruct (Nat.ltb_spec p (p + S fuel)); [reflexivity | lia].
    + rewrite (Hbelow k) by lia.
      change (fst (run_train session k)) with (step_at session (S k)).
      rewrite (IH (S k)) by (try lia; try assumption; intros j Hj1 Hj2; apply Hbelow; lia).
      replace (S k + fuel)%nat with (k + S fuel)%nat by lia.
      reflexivity.
Qed.

(** X18. With the criterion "step", [train] stops at the first pass whose
    global step is not below the budget.  When pass [passes] is that first
    one, a run of more than [passes] passes returns there, with the step of
    that pass (before the first pass when the step fetched before training
    has already reached the budget), and a shorter run is still in the loop.
    Conversely a run that has returned has returned at such a pass. *)
Theorem train_step_budget :
  forall (welch_t_test : list fval -> list fval -> fval)
         (np_sqrt : fval -> fval) (C : pkg_constants) (g : estimator_graph)
         (session : tf_session) (loss_window_size : option nat)
         (stopping_criteria : fval),
    let run := train welch_t_test np_sqrt C g session "step" loss_window_size
                     (Some stopping_criteria) in
    (forall passes fuel,
       first_at_budget session stopping_criteria passes ->
       run fuel
       = TrainedByStep
           (if (passes <? fuel)%nat
            then StepDone passes (step_at session passes)
            else StepRunning fuel (step_at session fuel))) /\
    (forall fuel,
       flt (of_Z (run_global_step session)) stopping_criteria = false ->
       run (S fuel) = TrainedByStep (StepDone 0 (run_global_step session))) /\
    (forall fuel passes final,
       run fuel = TrainedByStep (StepDone passes final) ->
       first_at_budget session stopping_criteria passes /\
       final = step_at session passes /\ (passes < fuel)%nat).
Proof.
  intros welch np_sqrt C g session lws thr run.
  assert (Hrun : forall fuel,
             run fuel = TrainedByStep (step_loop session thr fuel 0 (step_at session 0))).
  { intros fuel. unfold run, train. reflexivity. }
  split; [|split].
  - intros passes fuel [Hp Hbelow].
    rewrite Hrun. f_equal.
    rewrite (step_loop_runs session thr passes fuel 0);
      [reflexivity | lia | exact Hp | intros j _ Hj; apply Hbelow; exact Hj].
  - intros fuel H0.
    rewrite Hrun. cbn [step_loop step_at]. rewrite H0. reflexivity.
  - intros fuel passes final H.
    rewrite Hrun in H. injection H as H.
    apply step_loop_spec in H as (_ & H2 & H3 & H4 & H5).
    split; [|split; [exact H3 | lia]].
    split; [rewrite <- H3; exact H4|].
    intros j Hj. apply H5; lia.
Qed.

(** A run of the theorem: the global step counts from 0 and the budget is
    3, so the third pass is the first at the budget and a run of up to ten
    passes returns after three. *)
Lemma train_step_budget_witness :
  first_at_budget (counting_session 0) (Fin 3) 3 /\
  train (constant_test NaN) sample_sqrt sample_constants sample_graph
        (counting_session 0) "step" None (Some (Fin 3)) 10
  = TrainedByStep (StepDone 3 3).
Proof.
  assert (H : first_at_budget (counting_session 0) (Fin 3) 3).
  { split; [reflexivity|].
    intros j Hj.
    destruct j as [|[|[|j]]]; [reflexivity | reflexivity | reflexivity | lia]. }
  split; [exact H|].
  exact (proj1 (train_step_budget (constant_test NaN) sample_sqrt sample_constants
                  sample_graph (counting_session 0) None (Fin 3))
           3%nat 10%nat H).
Defined.

(** *** initialize *)




(** *** The current window as a ring of the latest losses *)

Lemma nth_set_nth_same {A : Type} (i : nat) (v d : A) (l : list A) :
  (i < List.length l)%nat -> nth i (set_nth i v l) d = v.
Proof.
  revert i; induction l as [|h t IH]; intros i Hi; [simpl in Hi; lia|].
  destruct i as [|i]; [reflexivity|].
  cbn [set_nth nth]. apply IH. simpl in Hi. lia.
Qed.

Lemma nth_set_nth_other {A : Type} (i j : nat) (v d : A) (l : list A) :
  i <> j -> nth j (set_nth i v l) d = nth j l d.
Proof.
  revert i j; induction l as [|h t IH]; intros i j Hij.
  - destruct i; reflexivity.
  - destruct i as [|i], j as [|j]; cbn [set_nth nth]; try reflexivity; try lia.
    apply IH. lia.
Qed.

Lemma slot_lt (n : nat) (s : Z) : (0 < n)%nat -> (slot n s < n)%nat.
Proof.
  intros Hn. unfold slot.
  pose proof (Z.mod_pos_bound (s - 1) (Z.of_nat n) ltac:(lia)).
  lia.
Qed.

Lemma slot_distinct (n : nat) (s : Z) (d : nat) :
  (0 < d)%nat -> (d < n)%nat -> slot n s <> slot n (s + Z.of_nat d).
Proof.
  intros Hd Hdn E.
  unfold slot in E.
  pose proof (Z.mod_pos_bound (s - 1) (Z.of_nat n) ltac:(lia)) as B1.
  pose proof (Z.mod_pos_bound (s + Z.of_nat d - 1) (Z.of_nat n) ltac:(lia)) as B2.
  apply Z2Nat.inj in E; try lia.
  assert (H : (Z.of_nat d mod Z.of_nat n = 0)%Z).
  { replace (Z.of_nat d) with ((s + Z.of_nat d - 1) - (s - 1))%Z by lia.
    rewrite Zminus_mod, <- E, Z.sub_diag.
    apply Z.mod_0_l. lia. }
  rewrite Z.mod_small in H by lia.
  lia.
Qed.

Section Ring.

Variable welch_t_test : list fval -> list fval -> fval.
Variable session : nat -> Z * fval.
Variable convergence_criteria : string.
Variable stopping_criteria : fval.
Hypothesis Hsteps : forall k, fst (session (S k)) = (fst (session k) + 1)%Z.

Let pass := iteration welch_t_test session convergence_criteria stopping_criteria.
Let run := loop welch_t_test session convergence_criteria stopping_criteria.

Lemma iteration_window (k : nat) (prev cur p1 c1 : list fval) (stopped : bool) :
  pass k prev cur = Ok (p1, c1, stopped) ->
  (0 < List.length cur)%nat /\
  c1 = set_nth (slot (List.length cur) (fst (session k))) (snd (session k)) cur.
Proof.
  unfold pass, iteration.
  destruct (session k) as [train_step global_loss]; cbn [fst snd].
  destruct (py_mod train_step (List.length cur)) as [m|e] eqn:Em;
    cbn [bind]; [|discriminate].
  destruct (py_mod (train_step - 1) (List.length cur)) as [i|e] eqn:Ei;
    cbn [bind]; [|discriminate].
  destruct (should_stop _ _ _ _ _ _) as [v|e]; cbn [bind]; [|discriminate].
  intros H; injection H as <- <- <-.
  apply py_mod_inv in Ei as (Hn & _ & ->).
  split; [exact Hn | reflexivity].
Qed.

Lemma ring_step (n k : nat) (cur : list fval) :
  (0 < n)%nat -> List.length cur = n ->
  (forall j, (j < n)%nat -> (j < k)%nat ->
     nth (slot n (fst (session (k - 1 - j)))) cur NaN = snd (session (k - 1 - j))) ->
  forall j, (j < n)%nat -> (j < S k)%nat ->
    nth (slot n (fst (session (S k - 1 - j))))
        (set_nth (slot n (fst (session k))) (snd (session k)) cur) NaN
    = snd (session (S k - 1 - j)).
Proof.
  intros Hn Hlen Hinv j Hj Hjk.
  destruct j as [|j].
  - replace (S k - 1 - 0)%nat with k by lia.
    apply nth_set_nth_same. rewrite Hlen. apply slot_lt. exact Hn.
  - replace (S k - 1 - S j)%nat with (k - 1 - j)%nat by lia.
    rewrite nth_set_nth_other.
    + apply Hinv; lia.
    + rewrite (steps_consecutive session Hsteps (k - 1 - j) k) by lia.
      intros E. symmetry in E. revert E.
      apply slot_distinct; lia.
Qed.

Lemma loop_ring (n fuel k k' : nat) (prev cur c' : list fval) :
  List.length cur = n ->
  (forall j, (j < n)%nat -> (j < k)%nat ->
     nth (slot n (fst (session (k - 1 - j)))) cur NaN = snd (session (k - 1 - j))) ->
  passes_and_window (run fuel k prev cur) = Some (k', c') ->
  List.length c' = n /\
  forall j, (j < n)%nat -> (j < k')%nat ->
    nth (slot n (fst (session (k' - 1 - j)))) c' NaN = snd (session (k' - 1 - j)).
Proof.
  revert k prev cur.
  induction fuel as [|fuel IH]; intros k prev cur Hlen Hinv Hrun.
  - unfold run in Hrun; cbn in Hrun. injection Hrun as <- <-.
    split; assumption.
  - unfold run in Hrun; cbn [loop] in Hrun. fold pass in Hrun.
    destruct (pass k prev cur) as [[[p1 c1] stopped]|e] eqn:Hpass;
      [|discriminate].
    apply iteration_window in Hpass as (Hn & ->).
    rewrite Hlen in *.
    pose proof (ring_step n k cur Hn Hlen Hinv) as Hinv'.
    destruct stopped.
    + cbn in Hrun. injection Hrun as <- <-.
      split; [rewrite set_nth_length; exact Hlen | exact Hinv'].
    + apply (IH (S k) p1 (set_nth (slot n (fst (session k))) (snd (session k)) cur));
        [rewrite set_nth_length; exact Hlen | exact Hinv' | exact Hrun].
Qed.

End Ring.

(** X20. The current window is a ring of the latest losses: when the global
    step advances by one per pass, after [k] passes the loss of each of the
    last [min k N] passes sits in the slot [(step - 1) mod N] of its global
    step, so the value returned is the mean over the latest [N] losses once
    [N] passes are made. *)
Theorem current_window_holds_latest_losses :
  forall (welch_t_test : list fval -> list fval -> fval)
         (session : nat -> Z * fval)
         (convergence_criteria : string) (stopping_criteria : fval)
         (loss_window_size fuel passes : nat) (loss_hist : list fval),
    (forall k, fst (session (S k)) = (fst (session k) + 1)%Z) ->
    passes_and_window
      (_train_to_convergence welch_t_test session convergence_criteria
                             stopping_criteria loss_window_size fuel)
    = Some (passes, loss_hist) ->
    List.length loss_hist = loss_window_size /\
    forall j, (j < loss_window_size)%nat -> (j < passes)%nat ->
      nth (slot loss_window_size (fst (session (passes - 1 - j)%nat))) loss_hist NaN
      = snd (session (passes - 1 - j)%nat).
Proof.
  intros welch session criteria thr n fuel k cur Hsteps Hrun.
  unfold _train_to_convergence in Hrun.
  apply (loop_ring welch session criteria thr Hsteps n fuel 0 k
           (np_tile PInf n) (np_tile PInf n) cur).
  - apply repeat_length.
  - intros j _ Hj. lia.
  - exact Hrun.
Qed.

Lemma current_window_holds_latest_losses_witness :
  passes_and_window
    (_train_to_convergence (constant_test (Fin (1 # 100))) falling_run "t_test"
                           (Fin (5 # 100)) 2 5)
  = Some (5%nat, [Fin (100 # 5); Fin (100 # 4)]) /\
  List.length [Fin (100 # 5); Fin (100 # 4)] = 2%nat /\
  forall j, (j < 2)%nat -> (j < 5)%nat ->
    nth (slot 2 (fst (falling_run (5 - 1 - j)%nat)))
        [Fin (100 # 5); Fin (100 # 4)] NaN
    = snd (falling_run (5 - 1 - j)%nat).
Proof.
  split; [vm_compute; reflexivity|].
  apply (current_window_holds_latest_losses (constant_test (Fin (1 # 100)))
           falling_run "t_test" (Fin (5 # 100)) 2 5 5
           [Fin (100 # 5); Fin (100 # 4)]).
  - intros k. unfold falling_run. cbn [fst]. lia.
  - vm_compute. reflexivity.
Defined.

(** *** Criteria compared *)

Lemma Qltb_lt (a b : Q) : Qltb a b = true <-> (a < b)%Q.
Proof.
  unfold Qltb. rewrite Qlt_alt.
  destruct (a ?= b)%Q; split; congruence.
Qed.

Lemma flt_fabs (x t : fval) : flt (fabs x) t = true -> flt x t = true.
Proof.
  destruct x as [q| | |], t as [r| | |]; cbn [fabs flt]; try congruence.
  rewrite !Qltb_lt. intros H.
  apply Qle_lt_trans with (Qabs q); [apply Qle_Qabs | exact H].
Qed.

(** X22. The absolute criterion is the stricter one: on the same windows
    and step, whenever [should_stop] is true for
    "absolute_moving_average" it is true for "moving_average". *)
Theorem absolute_moving_average_stricter :
  forall (welch_t_test : list fval -> list fval -> fval)
         (stopping_criteria : fval)
         (previous_loss_hist loss_hist : list fval) (step : Z),
    should_stop welch_t_test "absolute_moving_average" stopping_criteria
                previous_loss_hist loss_hist step = Ok (Some true) ->
    should_stop welch_t_test "moving_average" stopping_criteria
                previous_loss_hist loss_hist step = Ok (Some true).
Proof.
  intros welch thr prev cur step.
  unfold should_stop.
  destruct (py_mod step (List.length cur)) as [m|e]; cbn [bind]; [|discriminate].
  destruct (_ && _); [|discriminate].
  cbn [String.eqb Ascii.eqb Bool.eqb].
  intros H. injection H as H.
  rewrite (flt_fabs _ _ H). reflexivity.
Qed.

Lemma absolute_moving_average_stricter_witness :
  should_stop (constant_test NaN) "moving_average" (Fin (1 # 10))
              [Fin 2; Fin 2] [Fin 2; Fin 2] 4 = Ok (Some true).
Proof.
  apply (absolute_moving_average_stricter (constant_test NaN) (Fin (1 # 10))
           [Fin 2; Fin 2] [Fin 2; Fin 2] 4).
  vm_compute. reflexivity.
Defined.

End EstimatorFacts.
(** ** models/base.py *)

Module BaseFacts.

Import Estimator Base.
Local Open Scope string_scope.

(** X12. [BasicModel.get] checks a string key character by character: when
    no parameter has a name of one character, every non-empty string key
    raises [ValueError] naming the first character of the key, also when the
    key itself is a parameter. *)
Theorem BasicModel_get_string_key :
  forall (value : Type) (param_shapes : list string)
         (attribute : string -> option value) (c : Ascii.ascii) (rest : string),
    (forall k, In k param_shapes -> String.length k <> 1%nat) ->
    BasicModel_get value param_shapes attribute (KeyStr (String c rest))
    = Err (unknown_parameter (String c EmptyString)).
Proof.
  intros value shapes attr c rest Hno.
  cbn [BasicModel_get chars list_ascii_of_string map].
  unfold check_keys. cbn [first_unknown].
  destruct (in_shapes shapes (String c "")) eqn:E; [|reflexivity].
  exfalso.
  unfold in_shapes in E.
  apply existsb_exists in E as (k & Hk & Ek).
  apply String.eqb_eq in Ek. subst k.
  apply (Hno _ Hk). reflexivity.
Qed.

Lemma BasicModel_get_string_key_witness :
  BasicModel_get unit ["mu"; "r_param"] (fun _ => Some tt) (KeyStr "mu")
  = Err (unknown_parameter "m").
Proof.
  apply (BasicModel_get_string_key unit ["mu"; "r_param"] (fun _ => Some tt)
           "m"%char "u").
  intros k [<-|[<-|[]]]; discriminate.
Defined.

(** *** data_to_anndata *)

Lemma store_variable_ok (a : anndata) (k : string) (dims : list string) :
  is_ok (store_variable a k dims) = negb (is_scalar_variable (k, dims)).
Proof.
  unfold store_variable, is_scalar_variable. cbn [fst snd].
  destruct (k =? "X"); [reflexivity|].
  destruct dims as [|d rest]; [reflexivity|].
  cbn [negb andb first_dim bind].
  destruct (dims_eqb _ _); [reflexivity|].
  destruct (d =? "observations"); [reflexivity|].
  destruct (dims_eqb _ _); [reflexivity|].
  destruct (d =? "features"); reflexivity.
Qed.

Lemma store_variable_stored (a a' : anndata) (k : string) (dims : list string) :
  store_variable a k dims = Ok a' ->
  if k =? "X" then a' = a
  else List.length (stored a') = S (List.length (stored a)) /\
       forall s, In s (stored a') <-> In s (stored a) \/ s = k.
Proof.
  unfold store_variable.
  destruct (k =? "X"); [intros H; injection H as <-; reflexivity|].
  assert (Hgen : forall x,
             (x = AnnData (obs a ++ [k]) (obsm a) (var a) (varm a) (uns a) \/
              x = AnnData (obs a) (obsm a ++ [k]) (var a) (varm a) (uns a) \/
              x = AnnData (obs a) (obsm a) (var a ++ [k]) (varm a) (uns a) \/
              x = AnnData (obs a) (obsm a) (var a) (varm a ++ [k]) (uns a) \/
              x = AnnData (obs a) (obsm a) (var a) (varm a) (uns a ++ [k])) ->
             List.length (stored x) = S (List.length (stored a)) /\
             forall s, In s (stored x) <-> In s (stored a) \/ s = k).
  { intros x Hx.
    destruct Hx as [->|[->|[->|[->| ->]]]]; unfold stored; cbn [obs obsm var varm uns];
      (split;
       [rewrite !length_app; simpl; lia
       | intros s; rewrite !in_app_iff; simpl; intuition congruence]). }
  destruct (dims_eqb dims ["observations"]).
  { intros H; injection H as <-. apply Hgen. tauto. }
  destruct dims as [|d rest]; cbn [first_dim bind]; [discriminate|].
  destruct (d =? "observations").
  { intros H; injection H as <-. apply Hgen. tauto. }
  destruct (dims_eqb _ _).
  { intros H; injection H as <-. apply Hgen. tauto. }
  destruct (d =? "features"); intros H; injection H as <-; apply Hgen; tauto.
Qed.

Lemma store_variables_spec (vars : list (string * list string)) (a : anndata) :
  is_ok (store_variables a vars) = negb (existsb is_scalar_variable vars) /\
  forall a',
    store_variables a vars = Ok a' ->
    List.length (stored a')
    = Nat.add (List.length (stored a))
              (List.length (filter (fun kv => negb (fst kv =? "X")) vars)) /\
    forall s, In s (stored a') <->
              In s (stored a) \/ (s <> "X" /\ exists dims, In (s, dims) vars).
Proof.
  revert a.
  induction vars as [|[k dims] rest IH]; intros a.
  - cbn [store_variables existsb negb is_ok filter].
    split; [reflexivity|].
    intros a' H; injection H as <-.
    split; [simpl; lia|].
    intros s. split; [tauto|]. intros [H|(_ & dims & [])]; exact H.
  - cbn [store_variables existsb filter fst].
    pose proof (store_variable_ok a k dims) as Hok.
    destruct (store_variable a k dims) as [a1|e] eqn:E1; cbn [bind is_ok] in *.
    + destruct (IH a1) as [IHok IHspec].
      symmetry in Hok. apply negb_true_iff in Hok.
      rewrite Hok. cbn [orb].
      split; [exact IHok|].
      intros a' Ha'.
      destruct (IHspec a' Ha') as [Hlen Hin].
      apply store_variable_stored in E1.
      destruct (k =? "X") eqn:Ek.
      * subst a1. cbn [negb].
        split; [exact Hlen|].
        intros s. rewrite Hin.
        apply String.eqb_eq in Ek. subst k.
        split.
        -- intros [H|(Hs & d & Hd)]; [tauto|]. right. split; [exact Hs|].
           exists d. right. exact Hd.
        -- intros [H|(Hs & d & [Hd|Hd])]; [tauto | | right; eauto].
           injection Hd as <- _. congruence.
      * destruct E1 as [Hlen1 Hin1]. cbn [negb].
        split; [simpl; lia|].
        intros s. rewrite Hin, Hin1.
        apply String.eqb_neq in Ek.
        split.
        -- intros [[H | ->] | (Hs & d & Hd)]; [tauto | | ].
           ++ right. split; [exact Ek|]. exists dims. left. reflexivity.
           ++ right. split; [exact Hs|]. exists d. right. exact Hd.
        -- intros [H|(Hs & d & [Hd|Hd])]; [tauto | | right; eauto].
           injection Hd as <- _. tauto.
    + symmetry in Hok. apply negb_false_iff in Hok.
      rewrite Hok. cbn [orb negb].
      split; [reflexivity | discriminate].
Qed.

(** X13. [data_to_anndata] returns exactly when the data set has a variable
    [X] and no variable other than [X] is a scalar (without [X] the object
    cannot be created; a variable without dimensions makes [v.dims[0]]
    raise, it never reaches [uns]).  When it returns, [X] is left out of the
    slots and every other variable is stored once. *)
Theorem data_to_anndata_stores_each_variable :
  forall (vars : list (string * list string)),
    is_ok (data_to_anndata vars)
    = has_variable "X" vars && negb (existsb is_scalar_variable vars) /\
    (has_variable "X" vars = false ->
     data_to_anndata vars = Err (AttributeError "X")) /\
    forall a,
      data_to_anndata vars = Ok a ->
      List.length (stored a)
      = List.length (filter (fun kv => negb (fst kv =? "X")) vars) /\
      forall s, In s (stored a) <-> s <> "X" /\ exists dims, In (s, dims) vars.
Proof.
  intros vars.
  destruct (store_variables_spec vars empty_anndata) as [Hok Hspec].
  unfold data_to_anndata.
  destruct (has_variable "X" vars); cbn [andb is_ok].
  - split; [exact Hok|].
    split; [discriminate|].
    intros a Ha.
    destruct (Hspec a Ha) as [Hlen Hin].
    split; [exact Hlen|].
    intros s. rewrite Hin. cbn. tauto.
  - split; [reflexivity|].
    split; [reflexivity | discriminate].
Qed.

Lemma scan_output_ok (keys : list string) :
  scan_output keys = Ok tt -> forall k, In k keys -> k = "X".
Proof.
  induction keys as [|x t IH]; cbn [scan_output]; [intros _ k []|].
  destruct (String.eqb_spec x "X") as [->|Hne]; [|discriminate].
  intros H k [<-|Hk]; [reflexivity | apply IH; assumption].
Qed.

(** X21. [BasicModel.to_anndata] returns only when every parameter asked for
    is [X], and then returns the object it was given unchanged: any other
    parameter makes the loop read [dims] of a pair and raise. *)
Theorem to_anndata_only_X :
  forall (value : Type) (param_shapes : list string)
         (attribute : string -> option value) (parm : key) (adata a : anndata),
    to_anndata value param_shapes attribute parm adata = Ok a ->
    a = adata /\
    exists l, requested parm = Some l /\ forall k, In k l -> k = "X".
Proof.
  intros value shapes attr parm adata a H.
  unfold to_anndata in H.
  destruct (requested parm) as [l|]; [|discriminate].
  destruct (BasicModel_get value shapes attr (KeyIterable l)) as [d|e];
    cbn [bind] in H; [|discriminate].
  destruct (scan_output (dict_keys [] l)) as [[]|e] eqn:Es;
    cbn [bind] in H; [|discriminate].
  injection H as <-.
  split; [reflexivity|].
  exists l. split; [reflexivity|].
  intros k Hk.
  apply (scan_output_ok _ Es).
  apply (proj1 (EstimatorFacts.dict_keys_spec l [])).
  split; [exact Hk | intros []].
Qed.

Lemma to_anndata_only_X_witness :
  empty_anndata = empty_anndata /\
  exists l, requested (KeyStr "X") = Some l /\ forall k, In k l -> k = "X".
Proof.
  apply (to_anndata_only_X unit ["X"; "mu"] (fun _ => Some tt) (KeyStr "X")
           empty_anndata empty_anndata).
  reflexivity.
Defined.

Lemma data_to_anndata_stores_each_variable_witness :
  data_to_anndata sample_variables
  = Ok (AnnData ["batch"] ["design"] ["size"] ["loadings"] ["note"]) /\
  List.length (stored (AnnData ["batch"] ["design"] ["size"] ["loadings"] ["note"]))
  = List.length (filter (fun kv => negb (fst kv =? "X")) sample_variables) /\
  forall s,
    In s (stored (AnnData ["batch"] ["design"] ["size"] ["loadings"] ["note"]))
    <-> s <> "X" /\ exists dims, In (s, dims) sample_variables.
Proof.
  split; [reflexivity|].
  apply (proj2 (proj2 (data_to_anndata_stores_each_variable sample_variables))).
  reflexivity.
Defined.

End BaseFacts.
